(** * PageBolt MCP server: shallow embedding of [src/index.mjs]

    The server is a thin adapter: every tool handler checks its parameter
    bag, issues one HTTP request through [callApi], and reshapes the JSON
    answer into an MCP tool result.  Two handlers also write the payload to
    disk after [safePath] accepted the destination.

    The embedding follows the source function by function:
    - JavaScript values that come from [JSON.parse] are the inductive [Json];
      [undefined] is the [None] of [JsVal];
    - exceptions are the [Throw] outcome of [Outcome]; [try]/[catch] is
      [try_catch];
    - the network and the disk are a [World] threaded through the monad [M]:
      every [fetch] and every [writeFileSync] call is appended to a log, so
      that "no request" and "no write" are statements on logs;
    - what Node.js and the JavaScript engine provide (number arithmetic and
      printing, [JSON.stringify], [Buffer.from], [node:path]) is an interface
      ([JsNumber], [Platform]); theorems hold for every implementation and a
      reference implementation is given for evaluation.

    The eight tools of [registerTools] are embedded in full, and so are the
    documentation resource of [registerResources], whose own [fetch] goes
    through neither [callApi] nor a tool handler, and the two prompts of
    [registerPrompts] that read options.  The audit-page prompt is a fixed
    text around its argument and is left out, like the wiring of the server
    to the SDK. *)

From stdpp Require Import gmap strings list pretty.
From Stdlib Require Import Ascii QArith Qround Qabs.

Local Open Scope Z_scope.

(** ** Strings *)

Module Str.

(** The line feed and the double quote of the source's string literals. *)
Definition nl : string := String "010"%char "".
Definition dq : string := String "034"%char "".

(** [String.prototype.startsWith]. *)
Definition startsWith (s pre : string) : bool := String.prefix pre s.

(** [String.prototype.includes]. *)
Fixpoint includes (hay needle : string) : bool :=
  String.prefix needle hay ||
  match hay with
  | "" => false
  | String _ rest => includes rest needle
  end.

(** [Array.prototype.join] on an array of strings. *)
Fixpoint join (sep : string) (l : list string) : string :=
  match l with
  | [] => ""
  | [s] => s
  | s :: rest => s +:+ sep +:+ join sep rest
  end.

(** [s.replace(/\/$/, '')]: drop one slash at the very end. *)
Fixpoint dropTrailingSlash (s : string) : string :=
  match s with
  | "" => ""
  | String c rest =>
      match rest with
      | "" => if Ascii.eqb c "/" then "" else s
      | _ => String c (dropTrailingSlash rest)
      end
  end.

(** Substring as a proposition: [needle] occurs inside [hay]. *)
Definition occurs (needle hay : string) : Prop :=
  ∃ pre post, hay = pre +:+ needle +:+ post.

End Str.

(** ** Exceptions *)

Inductive Exn :=
  | Error (message : string)
  | TypeError (message : string)
  | SyntaxError (message : string).

(** [err.message] *)
Definition message (e : Exn) : string :=
  match e with
  | Error m | TypeError m | SyntaxError m => m
  end.

Inductive Outcome (A : Type) :=
  | Return (a : A)
  | Throw (e : Exn).
Arguments Return {A} a.
Arguments Throw {A} e.

#[global] Instance Outcome_ret : MRet Outcome := @Return.
#[global] Instance Outcome_bind : MBind Outcome := λ A B f o,
  match o with
  | Return a => f a
  | Throw e => Throw e
  end.

(** ** JavaScript numbers

    IEEE-754 arithmetic and the printing of numbers belong to the engine.
    The handlers only use the operations below. *)

Class JsNumber := {
  num : Type;
  num_of_Z : Z → num;                  (* integer literals, lengths *)
  num_nan : num;                       (* NaN *)
  num_to_string : num → string;        (* Number::toString *)
  num_truthy : num → bool;             (* ToBoolean *)
  num_eqb : num → num → bool;          (* Number::equal, for === *)
  num_gtb : num → num → bool;          (* a > b *)
  num_div : num → num → num;           (* a / b *)
  num_mul : num → num → num;           (* a * b *)
  Math_round : num → num;              (* Math.round *)
  num_toFixed : num → nat → string;    (* Number.prototype.toFixed *)
  num_toLocaleString : num → string;   (* Number.prototype.toLocaleString *)
  string_to_num : string → num;        (* StringToNumber *)
  (* an integer literal equals 0 exactly when it is the literal 0, and
     exceeds 0 exactly when it is positive *)
  num_eqb_of_Z_0 : ∀ z, num_eqb (num_of_Z z) (num_of_Z 0) = (z =? 0);
  num_gtb_of_Z_0 : ∀ z, num_gtb (num_of_Z z) (num_of_Z 0) = (0 <? z);
}.

(** ** JSON values and the JavaScript operations the handlers apply to them *)

Section Values.
Context `{JsNumber}.

(** What [JSON.parse] can produce.  An object is its list of own
    properties, in order, with distinct keys.  A string is a sequence of
    one-byte characters: [length] and iteration count bytes, where
    JavaScript counts UTF-16 code units and code points; on ASCII text the
    two agree. *)
#[warnings="-register-all"] Inductive Json :=
  | JNull
  | JBool (b : bool)
  | JNum (n : num)
  | JStr (s : string)
  | JArr (items : list Json)
  | JObj (props : list (string * Json)).

(** A JavaScript value in the handlers: [None] is [undefined]. *)
Definition JsVal := option Json.
Definition undefined : JsVal := None.
Definition str (s : string) : JsVal := Some (JStr s).

(** Own property lookup in an object. *)
Fixpoint assoc (k : string) (props : list (string * Json)) : JsVal :=
  match props with
  | [] => None
  | (k', v) :: rest => if String.eqb k k' then Some v else assoc k rest
  end.

Definition hasOwn (k : string) (props : list (string * Json)) : bool :=
  match assoc k props with Some _ => true | None => false end.

(** [{ ...props, k: v }]: the key keeps its place when it exists, else it
    is added at the end. *)
Fixpoint setProp (k : string) (v : Json) (props : list (string * Json))
  : list (string * Json) :=
  match props with
  | [] => [(k, v)]
  | (k', v') :: rest =>
      if String.eqb k k' then (k', v) :: rest else (k', v') :: setProp k v rest
  end.

(** [const { k, ...others } = props]: the properties without [k]. *)
Definition omitProp (k : string) (props : list (string * Json))
  : list (string * Json) :=
  filter (λ kv, negb (String.eqb k (fst kv))) props.

(** [v.k] for a property name [k] of the source.  Reading a property of
    [undefined] or [null] throws; arrays and strings have [length]; the
    names the handlers read are not methods of any prototype. *)
Definition get (v : JsVal) (k : string) : Outcome JsVal :=
  match v with
  | None =>
      Throw (TypeError ("Cannot read properties of undefined (reading '" +:+ k +:+ "')"))
  | Some JNull =>
      Throw (TypeError ("Cannot read properties of null (reading '" +:+ k +:+ "')"))
  | Some (JObj props) => Return (assoc k props)
  | Some (JArr items) =>
      Return (if String.eqb k "length"
              then Some (JNum (num_of_Z (Z.of_nat (length items)))) else None)
  | Some (JStr s) =>
      Return (if String.eqb k "length"
              then Some (JNum (num_of_Z (Z.of_nat (String.length s)))) else None)
  | Some _ => Return None
  end.

(** ToBoolean *)
Definition truthy (v : JsVal) : bool :=
  match v with
  | None | Some JNull => false
  | Some (JBool b) => b
  | Some (JNum n) => num_truthy n
  | Some (JStr s) => negb (String.eqb s "")
  | Some (JArr _) | Some (JObj _) => true
  end.

(** [a || b] *)
Definition or_else (a b : JsVal) : JsVal := if truthy a then a else b.

(** ToString, as applied by template literals.  A parsed object has no
    callable own property, so an own [toString] key makes the conversion
    fail; otherwise [Object.prototype.toString] answers.  Arrays print as
    [join(",")], where [null] items are empty. *)
Fixpoint ToString (j : Json) : Outcome string :=
  match j with
  | JNull => Return "null"
  | JBool b => Return (if b then "true" else "false")
  | JNum n => Return (num_to_string n)
  | JStr s => Return s
  | JArr items =>
      ss ← (fix each (l : list Json) : Outcome (list string) :=
              match l with
              | [] => Return []
              | x :: rest =>
                  s ← match x with JNull => Return "" | _ => ToString x end;
                  ss ← each rest;
                  Return (s :: ss)
              end) items;
      Return (Str.join "," ss)
  | JObj props =>
      if hasOwn "toString" props
      then Throw (TypeError "Cannot convert object to primitive value")
      else Return "[object Object]"
  end.

Definition to_str (v : JsVal) : Outcome string :=
  match v with
  | None => Return "undefined"
  | Some j => ToString j
  end.

(** ToNumber *)
Definition to_num (v : JsVal) : Outcome num :=
  match v with
  | None => Return num_nan
  | Some JNull => Return (num_of_Z 0)
  | Some (JBool b) => Return (num_of_Z (if b then 1 else 0))
  | Some (JNum n) => Return n
  | Some (JStr s) => Return (string_to_num s)
  | Some j => s ← ToString j; Return (string_to_num s)
  end.

(** [v === 'lit'] *)
Definition is_str (v : JsVal) (lit : string) : bool :=
  match v with
  | Some (JStr s) => String.eqb s lit
  | _ => false
  end.

(** [v === 0] *)
Definition is_zero (v : JsVal) : bool :=
  match v with
  | Some (JNum n) => num_eqb n (num_of_Z 0)
  | _ => false
  end.

(** [v > 0] *)
Definition gt0 (v : JsVal) : Outcome bool :=
  n ← to_num v; Return (num_gtb n (num_of_Z 0)).

(** [for (const x of v)]: the items of an array, the characters of a
    string; nothing else that [JSON.parse] returns is iterable. *)
Definition iterate (v : JsVal) : Outcome (list JsVal) :=
  match v with
  | Some (JArr items) => Return (Some <$> items)
  | Some (JStr s) =>
      Return ((λ c, Some (JStr (String c ""))) <$> String.list_ascii_of_string s)
  | _ => Throw (TypeError "value is not iterable")
  end.

(** The receiver of [v.filter(...)] and [v.map(...)]: only arrays have
    these methods. *)
Definition array_items (v : JsVal) (method : string) : Outcome (list JsVal) :=
  match v with
  | None | Some JNull => _ ← get v method; Return []
  | Some (JArr items) => Return (Some <$> items)
  | Some _ => Throw (TypeError (method +:+ " is not a function"))
  end.

(** [v.toLocaleString()] *)
Fixpoint toLocaleStringJ (j : Json) : Outcome string :=
  match j with
  | JNull => Throw (TypeError "Cannot read properties of null (reading 'toLocaleString')")
  | JBool b => Return (if b then "true" else "false")
  | JNum n => Return (num_toLocaleString n)
  | JStr s => Return s
  | JArr items =>
      ss ← (fix each (l : list Json) : Outcome (list string) :=
              match l with
              | [] => Return []
              | x :: rest =>
                  s ← match x with JNull => Return "" | _ => toLocaleStringJ x end;
                  ss ← each rest;
                  Return (s :: ss)
              end) items;
      Return (Str.join "," ss)
  | JObj props =>
      if hasOwn "toLocaleString" props
      then Throw (TypeError "toLocaleString is not a function")
      else if hasOwn "toString" props
      then Throw (TypeError "toString is not a function")
      else Return "[object Object]"
  end.

Definition toLocaleString (v : JsVal) : Outcome string :=
  match v with
  | None => Throw (TypeError "Cannot read properties of undefined (reading 'toLocaleString')")
  | Some j => toLocaleStringJ j
  end.

(** Monadic left fold, for loops whose body may throw. *)
Fixpoint foldM {A B} (f : B → A → Outcome B) (l : list A) (acc : B) : Outcome B :=
  match l with
  | [] => Return acc
  | x :: rest => acc' ← f acc x; foldM f rest acc'
  end.

Fixpoint mapM {A B} (f : A → Outcome B) (l : list A) : Outcome (list B) :=
  match l with
  | [] => Return []
  | x :: rest => y ← f x; ys ← mapM f rest; Return (y :: ys)
  end.

End Values.

(** ** The platform: serialisation, buffers and paths *)

(** A [Buffer]: a sequence of bytes. *)
Definition Buffer := string.

Class Platform `{JsNumber} := {
  JSON_stringify : Json → string;                 (* JSON.stringify(v) *)
  JSON_stringify_indent : Json → nat → string;    (* JSON.stringify(v, null, n) *)
  Buffer_from_base64 : JsVal → Outcome Buffer;    (* Buffer.from(v, 'base64') *)
  path_resolve : string → string → string;        (* resolve(p), given process.cwd() *)
  path_relative : string → string → string;       (* relative(from, to), both resolved *)
  path_isAbsolute : string → bool;                (* isAbsolute(p) *)
}.

(** ** The world outside the process: network and disk *)

Section World.
Context `{Platform}.

Record Request := mkRequest {
  req_url : string;
  req_method : string;
  req_headers : list (string * string);
  req_body : option string;
}.

(** A response as the handlers see it: status line and the result of
    [res.json()] ([None] when the body is not JSON). *)
Record Response := mkResponse {
  res_status : Z;
  res_statusText : string;
  res_body : option Json;
}.

(** What [fetch] settles to. *)
Inductive FetchResult :=
  | Responded (res : Response)
  | Rejected (e : Exn).

(** The observable state: every [fetch] call, every [writeFileSync] call,
    and the files on disk. *)
Record World := mkWorld {
  http_log : list Request;
  fs_log : list (string * Buffer);
  fs : gmap string Buffer;
}.

(** The host of one server process: its environment variables, its working
    directory, and how network and disk react.  The backend may answer
    differently depending on the requests it has already seen; whether a
    write fails may depend on the path and on what the disk holds. *)
Record Host := mkHost {
  PAGEBOLT_API_KEY : option string;
  PAGEBOLT_BASE_URL : option string;
  cwd : string;
  backend : list Request → Request → FetchResult;
  disk_fault : gmap string Buffer → string → option Exn;
}.

(** Computations that may throw and that act on the world. *)
Definition M (A : Type) : Type := World → Outcome A * World.

#[global] Instance M_ret : MRet M := λ A a w, (Return a, w).
#[global] Instance M_bind : MBind M := λ A B f m w,
  match m w with
  | (Return a, w') => f a w'
  | (Throw e, w') => (Throw e, w')
  end.

Definition throw {A} (e : Exn) : M A := λ w, (Throw e, w).

(** A computation without effect on the world. *)
Definition lift {A} (o : Outcome A) : M A := λ w, (o, w).

(** [try { m } catch (err) { handler err }] *)
Definition try_catch {A} (m : M A) (handler : Exn → M A) : M A := λ w,
  match m w with
  | (Return a, w') => (Return a, w')
  | (Throw e, w') => handler e w'
  end.

(** [res.ok] *)
Definition res_ok (res : Response) : bool :=
  (200 <=? res_status res) && (res_status res <=? 299).

(** [res.json()] *)
Definition res_json (res : Response) : Outcome JsVal :=
  match res_body res with
  | Some j => Return (Some j)
  | None => Throw (SyntaxError "Unexpected token in JSON")
  end.

Section Process.
Variable host : Host.

Definition fetch (req : Request) : M Response := λ w,
  let w' := {| http_log := http_log w ++ [req]; fs_log := fs_log w; fs := fs w |} in
  match backend host (http_log w) req with
  | Responded res => (Return res, w')
  | Rejected e => (Throw e, w')
  end.

Definition writeFileSync (path : string) (buffer : Buffer) : M unit := λ w,
  let log := fs_log w ++ [(path, buffer)] in
  match disk_fault host (fs w) path with
  | Some e => (Throw e, {| http_log := http_log w; fs_log := log; fs := fs w |})
  | None =>
      (Return tt, {| http_log := http_log w; fs_log := log; fs := <[path := buffer]> (fs w) |})
  end.

(** *** [safePath] *)

(** [resolve(p)]: the argument must be a string. *)
Definition resolve (p : JsVal) : Outcome string :=
  match p with
  | Some (JStr s) => Return (path_resolve (cwd host) s)
  | _ => Throw (TypeError "The paths[0] argument must be of type string")
  end.

Definition safePath (userPath : JsVal) (defaultName : string) : Outcome string :=
  resolved ← resolve (or_else userPath (str defaultName));
  let rel := path_relative (cwd host) resolved in
  if path_isAbsolute rel || Str.startsWith rel ".."
  then
    got ← to_str userPath;
    Throw (Error ("saveTo path must be within the current working directory. " +:+
                  "Got " +:+ Str.dq +:+ got +:+ Str.dq +:+
                  ", which resolves outside CWD (" +:+
                  cwd host +:+ ")."))
  else Return resolved.

(** *** Configuration *)

Definition API_KEY : option string := PAGEBOLT_API_KEY host.

Definition BASE_URL : string :=
  Str.dropTrailingSlash
    match PAGEBOLT_BASE_URL host with
    | Some s => if String.eqb s "" then "https://pagebolt.dev" else s
    | None => "https://pagebolt.dev"
    end.

Definition requireApiKey : Outcome unit :=
  match API_KEY with
  | Some (String _ _) => Return tt
  | _ =>
      Throw (Error ("PAGEBOLT_API_KEY environment variable is required. " +:+
                    "Get your free API key at https://pagebolt.dev"))
  end.

(** *** [callApi] *)

Record Options := mkOptions {
  opt_method : option string;
  opt_body : JsVal;
}.

(** A header value as [fetch] sends it. *)
Definition header_value (v : option string) : string := default "undefined" v.

(** [JSON.stringify(v)] for a value that may be [undefined]. *)
Definition stringify (v : JsVal) : JsVal :=
  match v with
  | Some j => str (JSON_stringify j)
  | None => undefined
  end.

(** The request that [callApi] hands to [fetch]. *)
Definition api_request (endpoint : string) (options : Options) : Request :=
  let url := BASE_URL +:+ endpoint in
  let method :=
    match opt_method options with
    | Some (String _ _ as m) => m
    | _ => "GET"
    end in
  let headers :=
    [("x-api-key", header_value API_KEY); ("user-agent", "pagebolt-mcp/1.6.2")] ++
    (if truthy (opt_body options) then [("Content-Type", "application/json")] else []) in
  {| req_url := url;
     req_method := method;
     req_headers := headers;
     req_body := if truthy (opt_body options)
                 then Some (default "" (JSON_stringify <$> opt_body options))
                 else None |}.

Definition callApi (endpoint : string) (options : Options) : M Response :=
  _ ← lift requireApiKey;
  res ← fetch (api_request endpoint options);
  if negb (res_ok res) then
    errorMsg ← try_catch
      (errJson ← lift (res_json res);
       e ← lift (get errJson "error");
       mret (or_else e (stringify errJson)))
      (λ _, mret (str ("HTTP " +:+ pretty (res_status res) +:+ " " +:+ res_statusText res)));
    text ← lift (to_str errorMsg);
    throw (Error ("PageBolt API error: " +:+ text))
  else mret res.

(** *** [imageMimeType] *)

(** A value stored in a result: a JSON-like value, or a member that an
    object literal inherits from [Object.prototype]. *)
Inductive Field :=
  | FVal (v : JsVal)
  | FInherited (name : string).

Definition Object_prototype : list string :=
  ["constructor"; "__defineGetter__"; "__defineSetter__"; "hasOwnProperty";
   "__lookupGetter__"; "__lookupSetter__"; "isPrototypeOf";
   "propertyIsEnumerable"; "toString"; "valueOf"; "__proto__"; "toLocaleString"].

(** [table[key] || fallback] for a literal table of non-empty strings. *)
Definition lookup_or (table : list (string * string)) (key : JsVal) (fallback : string)
  : Outcome Field :=
  k ← to_str key;
  match list_find (λ kv, fst kv = k) table with
  | Some (_, (_, v)) => Return (FVal (str v))
  | None =>
      if bool_decide (k ∈ Object_prototype)
      then Return (FInherited k)
      else Return (FVal (str fallback))
  end.

Definition imageMimeType (format : JsVal) : Outcome Field :=
  lookup_or [("png", "image/png"); ("jpeg", "image/jpeg");
             ("jpg", "image/jpeg"); ("webp", "image/webp")] format "image/png".

(** *** Tool results *)

Inductive ContentItem :=
  | TextItem (text : string)
  | ImageItem (data : JsVal) (mimeType : Field)
  | ResourceItem (uri : string) (mimeType : Field) (blob : JsVal).

(** [{ content, isError }]; an absent [isError] is [false]. *)
Record ToolResult := mkResult {
  content : list ContentItem;
  isError : bool;
}.

Definition success (items : list ContentItem) : ToolResult :=
  {| content := items; isError := false |}.

(** [{ content: [{ type: 'text', text }], isError: true }] *)
Definition failure (text : string) : ToolResult :=
  {| content := [TextItem text]; isError := true |}.

(** The parameter bag of a tool call: a JavaScript object.  The SDK checks
    it against the tool's schema before it calls the handler; the handlers
    are embedded on every bag, checked or not, so that their own tests on
    the source fields can be exercised. *)
Definition Params := list (string * Json).

(** [`${v.k}`] *)
Definition show (v : JsVal) (k : string) : Outcome string :=
  x ← get v k; to_str x.

Definition POST (body : list (string * Json)) : Options :=
  {| opt_method := Some "POST"; opt_body := Some (JObj body) |}.

Definition GET : Options := {| opt_method := None; opt_body := undefined |}.

(** *** Tool: take_screenshot *)

Definition take_screenshot (params : Params) : M ToolResult :=
  if negb (truthy (assoc "url" params)) && negb (truthy (assoc "html" params))
     && negb (truthy (assoc "markdown" params))
  then
    mret (failure ("Error: One of " +:+ Str.dq +:+ "url" +:+ Str.dq +:+ ", " +:+
                   Str.dq +:+ "html" +:+ Str.dq +:+ ", or " +:+
                   Str.dq +:+ "markdown" +:+ Str.dq +:+ " is required."))
  else
    res ← callApi "/api/v1/screenshot"
            (POST (setProp "response_type" (JStr "json") params));
    data ← lift (res_json res);
    lift (
      let format := or_else (assoc "format" params) (str "png") in
      image ← get data "data";
      mime ← imageMimeType format;
      f ← to_str format;
      size ← show data "size_bytes";
      duration ← show data "duration_ms";
      let content :=
        [ImageItem image mime;
         TextItem ("Screenshot captured successfully. Format: " +:+ f +:+
                   ", Size: " +:+ size +:+ " bytes, Duration: " +:+ duration +:+ "ms")] in
      metadata ← get data "metadata";
      match metadata with
      | Some j =>
          if truthy metadata
          then Return (success (content ++
                 [TextItem ("Metadata:" +:+ Str.nl +:+ JSON_stringify_indent j 2)]))
          else Return (success content)
      | None => Return (success content)
      end).

(** *** Tool: generate_pdf *)

(** [savedPath ? a : b] for a path that is a string or [null]. *)
Definition saved (savedPath : option string) : bool :=
  match savedPath with
  | Some (String _ _) => true
  | _ => false
  end.

Definition generate_pdf (params : Params) : M ToolResult :=
  if negb (truthy (assoc "url" params)) && negb (truthy (assoc "html" params))
  then
    mret (failure ("Error: Either " +:+ Str.dq +:+ "url" +:+ Str.dq +:+ " or " +:+
                   Str.dq +:+ "html" +:+ Str.dq +:+ " is required."))
  else
    let saveTo := assoc "saveTo" params in
    let apiParams := omitProp "saveTo" params in
    res ← callApi "/api/v1/pdf"
            (POST (setProp "response_type" (JStr "json") apiParams));
    data ← lift (res_json res);
    savedPath ← try_catch
      (outputPath ← lift (safePath saveTo "./output.pdf");
       payload ← lift (get data "data");
       buffer ← lift (Buffer_from_base64 payload);
       _ ← writeFileSync outputPath buffer;
       mret (Some outputPath))
      (λ _diskErr, mret None);
    let fileNote :=
      if saved savedPath
      then "  File: " +:+ default "" savedPath
      else "  File: (not saved to disk — use the embedded resource data below)" in
    lift (
      blob ← get data "data";
      size ← show data "size_bytes";
      duration ← show data "duration_ms";
      Return (success
        [ResourceItem "pagebolt://pdf/output.pdf" (FVal (str "application/pdf")) blob;
         TextItem ("PDF generated successfully." +:+ Str.nl +:+
                   fileNote +:+ Str.nl +:+
                   "  Size: " +:+ size +:+ " bytes" +:+ Str.nl +:+
                   "  Duration: " +:+ duration +:+ "ms")])).

(** *** Tool: create_og_image *)

Definition create_og_image (params : Params) : M ToolResult :=
  res ← callApi "/api/v1/og-image"
          (POST (setProp "response_type" (JStr "json") params));
  data ← lift (res_json res);
  lift (
    let format := or_else (assoc "format" params) (str "png") in
    image ← get data "data";
    mime ← imageMimeType format;
    f ← to_str format;
    size ← show data "size_bytes";
    duration ← show data "duration_ms";
    Return (success
      [ImageItem image mime;
       TextItem ("OG image created successfully. Format: " +:+ f +:+
                 ", Size: " +:+ size +:+ " bytes, Duration: " +:+ duration +:+ "ms")])).

(** [!params.steps || params.steps.length === 0] *)
Definition no_steps (params : Params) : Outcome bool :=
  let steps := assoc "steps" params in
  if negb (truthy steps) then Return true
  else len ← get steps "length"; Return (is_zero len).

Definition steps_error : ToolResult :=
  failure ("Error: " +:+ Str.dq +:+ "steps" +:+ Str.dq +:+ " must be a non-empty array.").

(** *** Tool: run_sequence *)

(** The body of [for (const output of data.outputs)]. *)
Definition push_output (content : list ContentItem) (output : JsVal)
  : Outcome (list ContentItem) :=
  type ← get output "type";
  if is_str type "screenshot" then
    image ← get output "data";
    mime ← get output "content_type";
    name ← show output "name";
    format ← show output "format";
    size ← show output "size_bytes";
    step ← show output "step_index";
    Return (content ++
      [ImageItem image (FVal mime);
       TextItem ("[" +:+ name +:+ "] Screenshot — " +:+ format +:+ ", " +:+
                 size +:+ " bytes, step " +:+ step)])
  else if is_str type "pdf" then
    name ← show output "name";
    format ← show output "format";
    size ← show output "size_bytes";
    step ← show output "step_index";
    Return (content ++
      [TextItem ("[" +:+ name +:+ "] PDF generated — " +:+ format +:+ ", " +:+
                 size +:+ " bytes, step " +:+ step +:+
                 " (base64 data available in raw response)")])
  else Return content.

(** [steps.filter(s => s.status === 'error')] *)
Fixpoint filter_failed (steps : list JsVal) : Outcome (list JsVal) :=
  match steps with
  | [] => Return []
  | s :: rest =>
      status ← get s "status";
      failed ← filter_failed rest;
      Return (if is_str status "error" then s :: failed else failed)
  end.

(** [s => `Step ${s.step_index} (${s.action}): ${s.error}`] *)
Definition describe_failed (s : JsVal) : Outcome string :=
  index ← show s "step_index";
  action ← show s "action";
  error ← show s "error";
  Return ("Step " +:+ index +:+ " (" +:+ action +:+ "): " +:+ error).

Definition sequence_result (data : JsVal) : Outcome ToolResult :=
  outputs ← get data "outputs";
  items ← iterate outputs;
  content ← foldM push_output items [];
  step_results ← get data "step_results";
  steps ← array_items step_results "filter";
  failedSteps ← filter_failed steps;
  completed ← show data "steps_completed";
  total ← show data "total_steps";
  outputs ← get data "outputs";
  count ← show outputs "length";
  duration ← show data "total_duration_ms";
  let summary :=
    "Sequence complete: " +:+ completed +:+ "/" +:+ total +:+ " steps, " +:+
    count +:+ " outputs, " +:+ duration +:+ "ms total." in
  summary ←
    match failedSteps with
    | [] => Return summary
    | _ =>
        described ← mapM describe_failed failedSteps;
        Return (summary +:+ Str.nl +:+ "Failed steps: " +:+ Str.join "; " described)
    end;
  usage ← get data "usage";
  charged ← show usage "outputs_charged";
  usage ← get data "usage";
  remaining ← show usage "remaining";
  let summary :=
    summary +:+ Str.nl +:+ "Usage: " +:+ charged +:+ " request(s) charged, " +:+
    remaining +:+ " remaining." in
  Return (success (content ++ [TextItem summary])).

Definition run_sequence (params : Params) : M ToolResult :=
  invalid ← lift (no_steps params);
  if (invalid : bool) then mret steps_error
  else
    try_catch
      (res ← callApi "/api/v1/sequence" (POST params);
       data ← lift (res_json res);
       lift (sequence_result data))
      (λ err, mret (failure ("Sequence error: " +:+ message err))).

(** *** Tool: record_video *)

(** [(v / d).toFixed(1)] *)
Definition scaled (v : JsVal) (d : Z) : Outcome string :=
  n ← to_num v; Return (num_toFixed (num_div n (num_of_Z d)) 1).

Definition record_video (params : Params) : M ToolResult :=
  invalid ← lift (no_steps params);
  if (invalid : bool) then mret steps_error
  else
    try_catch
      (let saveTo := assoc "saveTo" params in
       let apiParams := omitProp "saveTo" params in
       res ← callApi "/api/v1/video"
               (POST (setProp "response_type" (JStr "json") apiParams));
       data ← lift (res_json res);
       let format := or_else (assoc "format" params) (str "mp4") in
       let ext := if is_str format "gif" then str "gif" else format in
       mimeType ← lift (lookup_or [("mp4", "video/mp4"); ("webm", "video/webm");
                                   ("gif", "image/gif")] ext "video/mp4");
       savedPath ← try_catch
         (e ← lift (to_str ext);
          outputPath ← lift (safePath saveTo ("./recording." +:+ e));
          payload ← lift (get data "data");
          buffer ← lift (Buffer_from_base64 payload);
          _ ← writeFileSync outputPath buffer;
          mret (Some outputPath))
         (λ _diskErr, mret None);
       lift (
         duration_ms ← get data "duration_ms";
         durationSec ← scaled duration_ms 1000;
         let fileNote :=
           if saved savedPath
           then "  File:     " +:+ default "" savedPath +:+ Str.nl
           else "  File:     (not saved to disk — use the embedded resource data below)"
                +:+ Str.nl in
         e ← to_str ext;
         blob ← get data "data";
         format ← show data "format";
         size_bytes ← get data "size_bytes";
         size ← scaled size_bytes 1024;
         frames ← show data "frames";
         completed ← show data "steps_completed";
         total ← show data "total_steps";
         usage ← get data "usage";
         cost ← show usage "video_cost";
         usage ← get data "usage";
         remaining ← show usage "remaining";
         Return (success
           [ResourceItem ("pagebolt://video/recording." +:+ e) mimeType blob;
            TextItem ("Video recorded successfully." +:+ Str.nl +:+
                      fileNote +:+
                      "  Format:   " +:+ format +:+ Str.nl +:+
                      "  Size:     " +:+ size +:+ " KB" +:+ Str.nl +:+
                      "  Duration: " +:+ durationSec +:+ "s" +:+ Str.nl +:+
                      "  Frames:   " +:+ frames +:+ Str.nl +:+
                      "  Steps:    " +:+ completed +:+ "/" +:+ total +:+
                      " completed" +:+ Str.nl +:+
                      "  Cost:     " +:+ cost +:+ " API requests" +:+ Str.nl +:+
                      "  Remaining: " +:+ remaining +:+ " requests")])))
      (λ err, mret (failure ("Video recording error: " +:+ message err))).

(** *** Tool: inspect_page *)

(** [if (v) lines.push(`${label}${v}`)] *)
Definition push_if (lines : list string) (label : string) (v : JsVal)
  : Outcome (list string) :=
  if truthy v then s ← to_str v; Return (lines ++ [label +:+ s]) else Return lines.

(** The five listing blocks share one shape:
    [if (xs && xs.length > 0) { push(`Title (${xs.length}):`); for (const x
    of xs) { body }; push('') }]. *)
Definition listing (lines : list string) (xs : JsVal) (title : string)
    (body : list string → JsVal → Outcome (list string)) : Outcome (list string) :=
  if truthy xs then
    len ← get xs "length";
    some ← gt0 len;
    if (some : bool) then
      n ← show xs "length";
      items ← iterate xs;
      lines ← foldM body items (lines ++ [title +:+ " (" +:+ n +:+ "):"]);
      Return (lines ++ [""])
    else Return lines
  else Return lines.

Definition push_heading (lines : list string) (h : JsVal) : Outcome (list string) :=
  level ← show h "level";
  text ← show h "text";
  selector ← show h "selector";
  Return (lines ++ ["  H" +:+ level +:+ ": " +:+ text +:+ " — selector: " +:+ selector]).

(** [el.attributes && el.attributes.k], when truthy, appends
    [`${before}${el.attributes.k}${after}`] to [desc]. *)
Definition add_attribute (desc : string) (el : JsVal) (k before after : string)
  : Outcome string :=
  attributes ← get el "attributes";
  if truthy attributes then
    a ← get attributes k;
    if truthy a then v ← to_str a; Return (desc +:+ before +:+ v +:+ after)
    else Return desc
  else Return desc.

Definition push_element (lines : list string) (el : JsVal) : Outcome (list string) :=
  tag ← show el "tag";
  let desc := "[" +:+ tag in
  desc ← add_attribute desc el "type" " type=" "";
  let desc := desc +:+ "]" in
  text ← get el "text";
  desc ← (if truthy text
          then t ← to_str text; Return (desc +:+ " " +:+ Str.dq +:+ t +:+ Str.dq)
          else Return desc);
  desc ← add_attribute desc el "placeholder" (" placeholder=" +:+ Str.dq) Str.dq;
  desc ← add_attribute desc el "href" " → " "";
  selector ← show el "selector";
  let desc := desc +:+ " — selector: " +:+ selector in
  Return (lines ++ ["  " +:+ desc]).

Definition push_field (lines : list string) (field : JsVal) : Outcome (list string) :=
  f ← to_str field; Return (lines ++ ["    - " +:+ f]).

Definition push_form (lines : list string) (f : JsVal) : Outcome (list string) :=
  m ← get f "method";
  let method := or_else m (str "GET") in
  a ← get f "action";
  let action := or_else a (str "(none)") in
  selector ← show f "selector";
  method ← to_str method;
  action ← to_str action;
  fields ← get f "fields";
  count ← show fields "length";
  let lines := lines ++ ["  " +:+ selector +:+ " (" +:+ method +:+ " " +:+ action +:+
                         "): " +:+ count +:+ " field(s)"] in
  fields ← get f "fields";
  items ← iterate fields;
  foldM push_field items lines.

Definition push_link (lines : list string) (l : JsVal) : Outcome (list string) :=
  t ← get l "text";
  text ← to_str (or_else t (str "(no text)"));
  href ← show l "href";
  selector ← show l "selector";
  Return (lines ++ ["  " +:+ Str.dq +:+ text +:+ Str.dq +:+ " → " +:+ href +:+
                    " — selector: " +:+ selector]).

Definition push_image (lines : list string) (img : JsVal) : Outcome (list string) :=
  a ← get img "alt";
  alt ← (if truthy a
         then t ← show img "alt"; Return (Str.dq +:+ t +:+ Str.dq)
         else Return "(no alt)");
  src ← show img "src";
  selector ← show img "selector";
  Return (lines ++ ["  " +:+ alt +:+ " src=" +:+ src +:+ " — selector: " +:+ selector]).

Definition inspect_result (params : Params) (data : JsVal) : Outcome ToolResult :=
  t ← get data "title";
  title ← to_str (or_else t (str "(untitled)"));
  u ← get data "url";
  url ← to_str (or_else (or_else u (assoc "url" params)) (str "html content"));
  let lines := ["Page: " +:+ title +:+ " (" +:+ url +:+ ")"] in
  metadata ← get data "metadata";
  lines ←
    (if truthy metadata then
       description ← get metadata "description";
       lines ← push_if lines "Description: " description;
       lang ← get metadata "lang";
       lines ← push_if lines "Language: " lang;
       httpStatusCode ← get metadata "httpStatusCode";
       push_if lines "HTTP Status: " httpStatusCode
     else Return lines);
  let lines := lines ++ [""] in
  headings ← get data "headings";
  lines ← listing lines headings "Headings" push_heading;
  elements ← get data "elements";
  lines ← listing lines elements "Interactive Elements" push_element;
  forms ← get data "forms";
  lines ← listing lines forms "Forms" push_form;
  links ← get data "links";
  lines ← listing lines links "Links" push_link;
  images ← get data "images";
  lines ← listing lines images "Images" push_image;
  duration ← show data "duration_ms";
  let lines := lines ++ ["Duration: " +:+ duration +:+ "ms"] in
  Return (success [TextItem (Str.join Str.nl lines)]).

Definition inspect_page (params : Params) : M ToolResult :=
  if negb (truthy (assoc "url" params)) && negb (truthy (assoc "html" params))
  then
    mret (failure ("Error: Either " +:+ Str.dq +:+ "url" +:+ Str.dq +:+ " or " +:+
                   Str.dq +:+ "html" +:+ Str.dq +:+ " is required."))
  else
    try_catch
      (res ← callApi "/api/v1/inspect" (POST params);
       data ← lift (res_json res);
       lift (inspect_result params data))
      (λ err, mret (failure ("Inspect error: " +:+ message err))).

(** *** Tool: list_devices *)

Definition describe_device (d : JsVal) : Outcome string :=
  hasTouch ← get d "hasTouch";
  let touch := if truthy hasTouch then ", touch" else "" in
  isMobile ← get d "isMobile";
  let mobile := if truthy isMobile then ", mobile" else "" in
  name ← show d "name";
  viewport ← get d "viewport";
  width ← show viewport "width";
  viewport ← get d "viewport";
  height ← show viewport "height";
  viewport ← get d "viewport";
  scale ← show viewport "deviceScaleFactor";
  Return ("  " +:+ name +:+ " — " +:+ width +:+ "x" +:+ height +:+ " @" +:+ scale +:+
          "x" +:+ mobile +:+ touch).

Definition list_devices (_ : Params) : M ToolResult :=
  res ← callApi "/api/v1/devices" GET;
  data ← lift (res_json res);
  lift (
    devices ← get data "devices";
    items ← array_items devices "map";
    lines ← mapM describe_device items;
    devices ← get data "devices";
    count ← show devices "length";
    Return (success
      [TextItem ("Available device presets (" +:+ count +:+ "):" +:+ Str.nl +:+
                 Str.join Str.nl lines +:+
                 Str.nl +:+ Str.nl +:+ "Use the device name as the " +:+ Str.dq +:+
                 "viewportDevice" +:+ Str.dq +:+ " parameter in take_screenshot.")])).

(** *** Tool: check_usage *)

(** [usage.limit > 0 ? Math.round((usage.current / usage.limit) * 100) : 0] *)
Definition percentage (usage : JsVal) : Outcome num :=
  limit ← get usage "limit";
  positive ← gt0 limit;
  if (positive : bool) then
    current ← get usage "current";
    limit ← get usage "limit";
    c ← to_num current;
    l ← to_num limit;
    Return (Math_round (num_mul (num_div c l) (num_of_Z 100)))
  else Return (num_of_Z 0).

Definition usage_result (data : JsVal) : Outcome ToolResult :=
  plan ← get data "plan";
  usage ← get data "usage";
  pct ← percentage usage;
  plan ← to_str plan;
  current ← get usage "current";
  used ← toLocaleString current;
  limit ← get usage "limit";
  limit ← toLocaleString limit;
  remaining ← get usage "remaining";
  remaining ← toLocaleString remaining;
  Return (success
    [TextItem ("PageBolt Usage" +:+ Str.nl +:+
               "  Plan:      " +:+ plan +:+ Str.nl +:+
               "  Used:      " +:+ used +:+ " / " +:+ limit +:+ " requests" +:+ Str.nl +:+
               "  Remaining: " +:+ remaining +:+ Str.nl +:+
               "  Usage:     " +:+ num_to_string pct +:+ "%")]).

Definition check_usage (_ : Params) : M ToolResult :=
  res ← callApi "/api/v1/usage" GET;
  data ← lift (res_json res);
  lift (usage_result data).

(** *** The tool table of [registerTools] *)

Inductive Tool :=
  | TakeScreenshot | GeneratePdf | CreateOgImage | RunSequence
  | RecordVideo | InspectPage | ListDevices | CheckUsage.

Definition handler (t : Tool) : Params → M ToolResult :=
  match t with
  | TakeScreenshot => take_screenshot
  | GeneratePdf => generate_pdf
  | CreateOgImage => create_og_image
  | RunSequence => run_sequence
  | RecordVideo => record_video
  | InspectPage => inspect_page
  | ListDevices => list_devices
  | CheckUsage => check_usage
  end.

Definition endpoint (t : Tool) : string :=
  match t with
  | TakeScreenshot => "/api/v1/screenshot"
  | GeneratePdf => "/api/v1/pdf"
  | CreateOgImage => "/api/v1/og-image"
  | RunSequence => "/api/v1/sequence"
  | RecordVideo => "/api/v1/video"
  | InspectPage => "/api/v1/inspect"
  | ListDevices => "/api/v1/devices"
  | CheckUsage => "/api/v1/usage"
  end.

(** *** The api-docs resource of [registerResources] *)

Section Resource.

(** [res.text()]: the body of a response as text; reading it may fail. *)
Variable res_text : Response → Outcome string.

(** [{ uri, text, mimeType }] *)
Record ResourceContents := mkContents {
  uri : string;
  text : string;
  mimeType : string;
}.

Definition docs (text : string) : list ResourceContents :=
  [{| uri := "pagebolt://api-docs"; text := text; mimeType := "text/plain" |}].

Definition docs_fallback : string :=
  "Full API docs available at https://pagebolt.dev/docs or " +:+
  "https://pagebolt.dev/llms-full.txt".

(** [fetch(url)] without options: a GET without headers of the caller. *)
Definition docs_request : Request :=
  {| req_url := BASE_URL +:+ "/llms-full.txt";
     req_method := "GET";
     req_headers := [];
     req_body := None |}.

(** The read callback of the resource.  A [return] inside the [try] block
    leaves the callback; [None] stands for falling through to the
    statement after it. *)
Definition api_docs : M (list ResourceContents) :=
  returned ← try_catch
    (res ← fetch docs_request;
     if res_ok res then
       text ← lift (res_text res);
       mret (Some (docs text))
     else mret None)
    (λ _, mret None);
  match returned with
  | Some contents => mret contents
  | None => mret (docs docs_fallback)
  end.

End Resource.

End Process.
End World.

(** ** The prompts of [registerPrompts] *)

(** The callbacks of [registerPrompts].  The SDK checks the arguments
    against the prompt's schema before it calls the callback, so a required
    argument is a string and an optional one a string or absent. *)

Module Prompt.

(** [v ? ... : ...] for an optional string. *)
Definition given (v : option string) : bool :=
  match v with
  | Some (String _ _) => true
  | _ => false
  end.

(** [v === lit] *)
Definition equals (v : option string) (lit : string) : bool :=
  match v with
  | Some s => String.eqb s lit
  | None => false
  end.

(** [v || fallback] *)
Definition or_default (v : option string) (fallback : string) : string :=
  match v with
  | Some (String _ _ as s) => s
  | _ => fallback
  end.

(** [`${v}`] *)
Definition shown (v : option string) : string := default "undefined" v.

End Prompt.

Module CapturePage.
Import Prompt.

Record Args := mkArgs {
  url : string;
  device : option string;
  dark_mode : option string;
  full_page : option string;
  style_theme : option string;
}.

Definition styled (args : Args) : bool :=
  given (style_theme args) && negb (equals (style_theme args) "none").

Definition prompt (args : Args) : string :=
  let device_line :=
    if given (device args)
    then Str.nl +:+ "- Use device preset: " +:+ shown (device args) else "" in
  let dark := if equals (dark_mode args) "true" then Str.nl +:+ "- Enable dark mode" else "" in
  let full :=
    if equals (full_page args) "true"
    then Str.nl +:+ "- Capture the full scrollable page" else "" in
  let style :=
    if styled args
    then Str.nl +:+ "- Apply style theme: " +:+ Str.dq +:+ shown (style_theme args) +:+
         Str.dq +:+ " (adds frame, background, shadow)"
    else "" in
  "Take a clean screenshot of " +:+ url args +:+ " with these settings:" +:+ Str.nl +:+
  "- Block banners, ads, chats, and trackers for a clean capture" +:+
  device_line +:+ dark +:+ full +:+ style +:+ Str.nl +:+
  "- Use PNG format" +:+ Str.nl +:+
  Str.nl +:+
  "Call take_screenshot with:" +:+ Str.nl +:+
  "  url: " +:+ Str.dq +:+ url args +:+ Str.dq +:+ Str.nl +:+
  "  blockBanners: true" +:+ Str.nl +:+
  "  blockAds: true" +:+ Str.nl +:+
  "  blockChats: true" +:+ Str.nl +:+
  "  blockTrackers: true" +:+
  (if given (device args)
   then Str.nl +:+ "  viewportDevice: " +:+ Str.dq +:+ shown (device args) +:+ Str.dq
   else "") +:+
  (if equals (dark_mode args) "true" then Str.nl +:+ "  darkMode: true" else "") +:+
  (if equals (full_page args) "true"
   then Str.nl +:+ "  fullPage: true" +:+ Str.nl +:+ "  fullPageScroll: true" else "") +:+
  (if styled args
   then Str.nl +:+ "  style: { theme: " +:+ Str.dq +:+ shown (style_theme args) +:+
        Str.dq +:+ " }"
   else "").

(** The arguments with every option that the callback treats as unset
    removed. *)
Definition effective (args : Args) : Args :=
  {| url := url args;
     device := if given (device args) then device args else None;
     dark_mode := if equals (dark_mode args) "true" then Some "true" else None;
     full_page := if equals (full_page args) "true" then Some "true" else None;
     style_theme := if styled args then style_theme args else None |}.

End CapturePage.

Module RecordDemo.
Import Prompt.

Record Args := mkArgs {
  url : string;
  description : string;
  pace : option string;
  format : option string;
  frame : option string;
  background : option string;
}.

Definition prompt (args : Args) : string :=
  let pace := or_default (pace args) "normal" in
  let format := or_default (format args) "mp4" in
  let frame := or_default (frame args) "none" in
  let bg := or_default (background args) "none" in
  let frameConfig :=
    if negb (String.eqb frame "none")
    then Str.nl +:+ "   - frame: { enabled: true, style: " +:+ Str.dq +:+ frame +:+ Str.dq +:+
         ", theme: " +:+ Str.dq +:+ "dark" +:+ Str.dq +:+ " }"
    else "" in
  let bgConfig :=
    if negb (String.eqb bg "none")
    then Str.nl +:+ "   - background: { enabled: true, type: " +:+ Str.dq +:+ "gradient" +:+
         Str.dq +:+ ", gradient: " +:+ Str.dq +:+ bg +:+ Str.dq +:+
         ", padding: 40, borderRadius: 12 }"
    else "" in
  "Record a professional demo video. Here's what I need:" +:+ Str.nl +:+
  Str.nl +:+
  "**Starting URL:** " +:+ url args +:+ Str.nl +:+
  "**What to demo:** " +:+ description args +:+ Str.nl +:+
  "**Pace:** " +:+ pace +:+ Str.nl +:+
  "**Format:** " +:+ format +:+ Str.nl +:+
  Str.nl +:+
  "Please follow this workflow:" +:+ Str.nl +:+
  Str.nl +:+
  "1. First, call inspect_page on " +:+ url args +:+
  " (with blockBanners: true) to discover the page structure and get reliable CSS selectors."
  +:+ Str.nl +:+
  Str.nl +:+
  "2. Based on the inspection results and the description above, plan a sequence of steps (navigate, click, fill, scroll, wait, etc.) that demonstrates the described flow."
  +:+ Str.nl +:+
  Str.nl +:+
  "3. Call record_video with:" +:+ Str.nl +:+
  "   - The planned steps array" +:+ Str.nl +:+
  "   - format: " +:+ Str.dq +:+ format +:+ Str.dq +:+ Str.nl +:+
  "   - pace: " +:+ Str.dq +:+ pace +:+ Str.dq +:+ Str.nl +:+
  "   - blockBanners: true" +:+ Str.nl +:+
  "   - cursor: { style: " +:+ Str.dq +:+ "classic" +:+ Str.dq +:+
  ", visible: true, persist: true }" +:+ Str.nl +:+
  "   - clickEffect: { style: " +:+ Str.dq +:+ "ripple" +:+ Str.dq +:+ " }" +:+
  frameConfig +:+ bgConfig +:+ Str.nl +:+
  Str.nl +:+
  "Important tips:" +:+ Str.nl +:+
  "- Use selectors from the inspect_page results — never guess selectors" +:+ Str.nl +:+
  "- Do NOT add wait steps between every action — the pace parameter already handles timing between steps. Only use wait when: (1) the page needs time to load new content after navigation, or (2) you need to hold on a view for narration."
  +:+ Str.nl +:+
  "- Do NOT use zoom unless I specifically ask for it" +:+ Str.nl +:+
  "- **ALWAYS add a " +:+ Str.dq +:+ "note" +:+ Str.dq +:+
  " field on every meaningful step** — notes render as styled tooltip annotations that explain what's happening, creating a guided tour experience. Examples:"
  +:+ Str.nl +:+
  "  - navigate: note: " +:+ Str.dq +:+ "Opening the dashboard" +:+ Str.dq +:+ Str.nl +:+
  "  - click: note: " +:+ Str.dq +:+ "This button creates a new project" +:+ Str.dq +:+ Str.nl +:+
  "  - fill: note: " +:+ Str.dq +:+ "Enter your email to get started" +:+ Str.dq +:+ Str.nl +:+
  "  - hover: note: " +:+ Str.dq +:+ "Hover to reveal the dropdown menu" +:+ Str.dq +:+ Str.nl +:+
  "  - The ONLY steps without notes should be wait/wait_for (pauses)" +:+ Str.nl +:+
  "- Keep to 5-15 action steps for best results. Fewer steps = faster encoding and smaller files."
  +:+ Str.nl +:+
  "- Each video costs 3 API requests".

(** The arguments with the documented default put in for every option
    that is absent or empty. *)
Definition with_defaults (args : Args) : Args :=
  {| url := url args;
     description := description args;
     pace := Some (or_default (pace args) "normal");
     format := Some (or_default (format args) "mp4");
     frame := Some (or_default (frame args) "none");
     background := Some (or_default (background args) "none") |}.

End RecordDemo.

(** ** A reference platform

    An implementation of [JsNumber] and [Platform] for evaluating the
    handlers on concrete calls.  Numbers are exact rationals extended with
    [NaN] and the infinities: on operands and results that a double holds
    exactly (the integers and short decimals of the examples) the
    operations agree with IEEE-754.  Paths follow the POSIX flavour of
    [node:path]. *)

Module Reference.

Inductive xnum :=
  | NaN
  | PosInf
  | NegInf
  | Fin (q : Q).

Definition Qpos (q : Q) : bool := negb (Qle_bool q 0).
Definition Qneg (q : Q) : bool := negb (Qle_bool 0 q).
Definition Qzero (q : Q) : bool := Qeq_bool q 0.

(** Left padding with zeros up to [width] digits. *)
Fixpoint pad (width : nat) (digits : string) : string :=
  match width with
  | O => digits
  | S w => if (String.length digits <? width)%nat then pad w ("0" +:+ digits) else digits
  end.

(** [|q|] rounded to [d] decimals, ties away from zero, as an integer
    number of units [10^-d]. *)
Definition units (q : Q) (d : nat) : Z :=
  Qfloor (Qabs q * inject_Z (10 ^ Z.of_nat d) + (1 # 2)).

Definition fixed (q : Q) (d : nat) : string :=
  let n := units q d in
  let scale := 10 ^ Z.of_nat d in
  (if Qneg q && (0 <? n) then "-" else "") +:+
  pretty (n / scale) +:+
  match d with
  | O => ""
  | _ => "." +:+ pad d (pretty (n mod scale))
  end.

(** Drop the zeros, and then the point, that end a decimal expansion. *)
Fixpoint trim_zeros (rev_digits : list ascii) : list ascii :=
  match rev_digits with
  | c :: rest =>
      if Ascii.eqb c "0" then trim_zeros rest
      else if Ascii.eqb c "." then rest
      else rev_digits
  | [] => []
  end.

Definition trim (s : string) : string :=
  String.string_of_list_ascii (rev (trim_zeros (rev (String.list_ascii_of_string s)))).

Definition to_string (x : xnum) : string :=
  match x with
  | NaN => "NaN"
  | PosInf => "Infinity"
  | NegInf => "-Infinity"
  | Fin q =>
      let r := Qred q in
      if (Zpos (Qden r) =? 1) then pretty (Qnum r) else trim (fixed q 17)
  end.

(** Thousands separators of the [en-US] locale. *)
Fixpoint group (rev_digits : list ascii) (seen : nat) : list ascii :=
  match rev_digits with
  | [] => []
  | c :: rest =>
      match rest with
      | [] => [c]
      | _ => if (seen =? 2)%nat then c :: ","%char :: group rest 0
             else c :: group rest (S seen)
      end
  end.

Definition grouped (digits : string) : string :=
  String.string_of_list_ascii (rev (group (rev (String.list_ascii_of_string digits)) 0)).

Definition to_locale_string (x : xnum) : string :=
  match x with
  | NaN => "NaN"
  | PosInf => "∞"
  | NegInf => "-∞"
  | Fin q =>
      let n := units q 3 in
      (if Qneg q && (0 <? n) then "-" else "") +:+
      grouped (pretty (n / 1000)) +:+
      (if n mod 1000 =? 0 then "" else trim ("." +:+ pad 3 (pretty (n mod 1000))))
  end.

Definition div (a b : xnum) : xnum :=
  match a, b with
  | Fin x, Fin y =>
      if Qzero y then
        if Qzero x then NaN else if Qpos x then PosInf else NegInf
      else Fin (Qred (x / y))
  | Fin _, (PosInf | NegInf) => Fin 0
  | PosInf, Fin y => if Qneg y then NegInf else PosInf
  | NegInf, Fin y => if Qneg y then PosInf else NegInf
  | _, _ => NaN
  end.

Definition mul (a b : xnum) : xnum :=
  match a, b with
  | Fin x, Fin y => Fin (Qred (x * y))
  | Fin x, PosInf | PosInf, Fin x =>
      if Qzero x then NaN else if Qpos x then PosInf else NegInf
  | Fin x, NegInf | NegInf, Fin x =>
      if Qzero x then NaN else if Qpos x then NegInf else PosInf
  | PosInf, PosInf | NegInf, NegInf => PosInf
  | PosInf, NegInf | NegInf, PosInf => NegInf
  | _, _ => NaN
  end.

Definition gtb (a b : xnum) : bool :=
  match a, b with
  | Fin x, Fin y => negb (Qle_bool x y)
  | PosInf, (Fin _ | NegInf) => true
  | Fin _, NegInf => true
  | _, _ => false
  end.

Definition eqb (a b : xnum) : bool :=
  match a, b with
  | Fin x, Fin y => Qeq_bool x y
  | PosInf, PosInf | NegInf, NegInf => true
  | _, _ => false
  end.

Definition round (a : xnum) : xnum :=
  match a with
  | Fin x => Fin (inject_Z (Qfloor (x + (1 # 2))))
  | _ => a
  end.

(** Decimal digits as a natural number. *)
Fixpoint digits_value (s : string) (acc : Z) : option Z :=
  match s with
  | "" => Some acc
  | String c rest =>
      let d := Z.of_nat (nat_of_ascii c) - 48 in
      if (0 <=? d) && (d <=? 9) then digits_value rest (10 * acc + d) else None
  end.

(** StringToNumber on the empty string and on signed decimal integers;
    any other text is given as [NaN] (JavaScript also reads fractions,
    exponents and other radices, which the examples do not use). *)
Definition of_string (s : string) : xnum :=
  match s with
  | "" => Fin 0
  | String "-" (String _ _ as rest) =>
      match digits_value rest 0 with
      | Some n => Fin (inject_Z (- n))
      | None => NaN
      end
  | _ =>
      match digits_value s 0 with
      | Some n => Fin (inject_Z n)
      | None => NaN
      end
  end.

Lemma eqb_of_Z_0 z : eqb (Fin (inject_Z z)) (Fin (inject_Z 0)) = (z =? 0).
Proof.
  unfold eqb, Qeq_bool, Z.eqb; simpl. rewrite Z.mul_1_r. reflexivity.
Qed.

Lemma gtb_of_Z_0 z : gtb (Fin (inject_Z z)) (Fin (inject_Z 0)) = (0 <? z).
Proof.
  unfold gtb, Qle_bool; simpl. rewrite Z.mul_1_r. symmetry. apply Z.ltb_antisym.
Qed.

#[global] Instance number : JsNumber := {|
  num := xnum;
  num_of_Z z := Fin (inject_Z z);
  num_nan := NaN;
  num_to_string := to_string;
  num_truthy x := match x with NaN => false | Fin q => negb (Qzero q) | _ => true end;
  num_eqb := eqb;
  num_gtb := gtb;
  num_div := div;
  num_mul := mul;
  Math_round := round;
  num_toFixed x d := match x with Fin q => fixed q d | _ => to_string x end;
  num_toLocaleString := to_locale_string;
  string_to_num := of_string;
  num_eqb_of_Z_0 := eqb_of_Z_0;
  num_gtb_of_Z_0 := gtb_of_Z_0;
|}.

(** *** JSON.stringify *)

(** Escapes of a string literal: the quote and the backslash. *)
Fixpoint escape (s : string) : string :=
  match s with
  | "" => ""
  | String c rest =>
      (if Ascii.eqb c "034" || Ascii.eqb c "\" then "\" else "") +:+
      String c (escape rest)
  end.

Definition quote (s : string) : string := Str.dq +:+ escape s +:+ Str.dq.

Definition number_json (x : xnum) : string :=
  match x with
  | Fin _ => to_string x
  | _ => "null"
  end.

Fixpoint stringify_compact (j : Json) : string :=
  match j with
  | JNull => "null"
  | JBool b => if b then "true" else "false"
  | JNum n => number_json n
  | JStr s => quote s
  | JArr items => "[" +:+ Str.join "," (map stringify_compact items) +:+ "]"
  | JObj props =>
      "{" +:+
      Str.join "," (map (λ kv, quote (fst kv) +:+ ":" +:+ stringify_compact (snd kv)) props)
      +:+ "}"
  end.

Fixpoint spaces (n : nat) : string :=
  match n with
  | O => ""
  | S m => " " +:+ spaces m
  end.

(** [JSON.stringify(j, null, step)], printed at the given indentation. *)
Fixpoint stringify_at (step indent : nat) (j : Json) : string :=
  let inner := (indent + step)%nat in
  let sep := "," +:+ Str.nl +:+ spaces inner in
  match j with
  | JNull => "null"
  | JBool b => if b then "true" else "false"
  | JNum n => number_json n
  | JStr s => quote s
  | JArr [] => "[]"
  | JArr items =>
      "[" +:+ Str.nl +:+ spaces inner +:+
      Str.join sep (map (stringify_at step inner) items) +:+
      Str.nl +:+ spaces indent +:+ "]"
  | JObj [] => "{}"
  | JObj props =>
      "{" +:+ Str.nl +:+ spaces inner +:+
      Str.join sep
        (map (λ kv, quote (fst kv) +:+ ": " +:+ stringify_at step inner (snd kv)) props) +:+
      Str.nl +:+ spaces indent +:+ "}"
  end.

(** *** Buffer.from(text, 'base64')

    The decoder of Node is lenient: it stops at the first padding sign and
    skips what is not a digit.  Only text is decoded here; Node also
    accepts arrays of bytes. *)

(** The value of a base64 digit, in either alphabet. *)
Definition sextet (c : ascii) : option Z :=
  let n := Z.of_nat (nat_of_ascii c) in
  if (65 <=? n) && (n <=? 90) then Some (n - 65)
  else if (97 <=? n) && (n <=? 122) then Some (n - 71)
  else if (48 <=? n) && (n <=? 57) then Some (n + 4)
  else if (n =? 43) || (n =? 45) then Some 62
  else if (n =? 47) || (n =? 95) then Some 63
  else None.

(** The digits up to the first padding sign; other characters are skipped. *)
Fixpoint sextets (s : string) : list Z :=
  match s with
  | "" => []
  | String c rest =>
      if Ascii.eqb c "=" then []
      else match sextet c with
           | Some v => v :: sextets rest
           | None => sextets rest
           end
  end.

Definition byte (n : Z) : ascii := ascii_of_nat (Z.to_nat (n mod 256)).

Fixpoint octets (fuel : nat) (l : list Z) : list ascii :=
  match fuel, l with
  | S f, a :: b :: c :: d :: rest =>
      let n := a * 262144 + b * 4096 + c * 64 + d in
      byte (n / 65536) :: byte (n / 256) :: byte n :: octets f rest
  | S _, [a; b; c] =>
      let n := a * 4096 + b * 64 + c in
      [byte (n / 1024); byte (n / 4)]
  | S _, [a; b] => [byte ((a * 64 + b) / 16)]
  | _, _ => []
  end.

Definition base64_decode (s : string) : Buffer :=
  let l := sextets s in
  String.string_of_list_ascii (octets (S (length l)) l).

(** *** node:path, POSIX

    [relative] is applied by [safePath] to two absolute paths; a relative
    argument is read from the root here. *)

(** The segments between slashes. *)
Fixpoint segments (s : string) (current : string) : list string :=
  match s with
  | "" => [current]
  | String c rest =>
      if Ascii.eqb c "/" then current :: segments rest ""
      else segments rest (current +:+ String c "")
  end.

(** Segments of an absolute path after [.] and [..] are resolved; the
    list is kept in reverse while walking. *)
Fixpoint walk (segs : list string) (rev_acc : list string) : list string :=
  match segs with
  | [] => rev rev_acc
  | seg :: rest =>
      if String.eqb seg "" || String.eqb seg "." then walk rest rev_acc
      else if String.eqb seg ".." then walk rest (tail rev_acc)
      else walk rest (seg :: rev_acc)
  end.

Definition is_absolute (p : string) : bool := Str.startsWith p "/".

Definition absolute_segments (cwd p : string) : list string :=
  if is_absolute p then walk (segments p "") []
  else walk (segments cwd "" ++ segments p "") [].

Definition resolve_posix (cwd p : string) : string :=
  "/" +:+ Str.join "/" (absolute_segments cwd p).

Fixpoint relative_segments (from to : list string) : list string :=
  match from, to with
  | f :: from', t :: to' =>
      if String.eqb f t then relative_segments from' to'
      else map (λ _, "..") from ++ to
  | _, _ => map (λ _, "..") from ++ to
  end.

Definition relative_posix (from to : string) : string :=
  Str.join "/" (relative_segments (absolute_segments "/" from) (absolute_segments "/" to)).

#[global] Instance platform : Platform := {|
  JSON_stringify := stringify_compact;
  JSON_stringify_indent j step := stringify_at step 0 j;
  Buffer_from_base64 v :=
    match v with
    | Some (JStr s) => Return (base64_decode s)
    | _ => Throw (TypeError "The first argument must be of type string")
    end;
  path_resolve := resolve_posix;
  path_relative := relative_posix;
  path_isAbsolute := is_absolute;
|}.

End Reference.

(** * Properties *)

(** ** Facts about strings *)

Module StrFacts.

Lemma append_nil_r (s : string) : s +:+ "" = s.
Proof.
  induction s as [|c s IH]; [reflexivity | exact (f_equal (String c) IH)].
Qed.

Lemma append_assoc (a b c : string) : (a +:+ b) +:+ c = a +:+ (b +:+ c).
Proof.
  induction a as [|x a IH]; [reflexivity | exact (f_equal (String x) IH)].
Qed.

Lemma occurs_refl (s : string) : Str.occurs s s.
Proof. exists "", "". simpl. symmetry. apply append_nil_r. Qed.

Lemma occurs_append_l (needle hay prefix : string) :
  Str.occurs needle hay → Str.occurs needle (prefix +:+ hay).
Proof.
  intros (pre & post & ->). exists (prefix +:+ pre), post.
  symmetry. apply append_assoc.
Qed.

Lemma occurs_append_r (needle hay suffix : string) :
  Str.occurs needle hay → Str.occurs needle (hay +:+ suffix).
Proof.
  intros (pre & post & ->). exists pre, (post +:+ suffix).
  rewrite !append_assoc. reflexivity.
Qed.

Lemma occurs_empty (hay : string) : Str.occurs "" hay.
Proof. exists "", hay. reflexivity. Qed.

Lemma prefix_append (s rest : string) : String.prefix s (s +:+ rest) = true.
Proof.
  induction s as [|c s IH].
  - destruct rest; reflexivity.
  - change (String.prefix (String c s) (String c (s +:+ rest)) = true).
    simpl. destruct (ascii_dec c c); [exact IH | congruence].
Qed.

Lemma includes_unfold (hay needle : string) :
  Str.includes hay needle =
  String.prefix needle hay ||
  match hay with
  | "" => false
  | String _ rest => Str.includes rest needle
  end.
Proof. destruct hay; reflexivity. Qed.

(** [includes] finds every occurrence. *)
Lemma includes_complete (needle hay : string) :
  Str.occurs needle hay → Str.includes hay needle = true.
Proof.
  intros (pre & post & ->).
  induction pre as [|c pre IH]; rewrite includes_unfold.
  - change ("" +:+ needle +:+ post) with (needle +:+ post).
    rewrite prefix_append. reflexivity.
  - change (String c pre +:+ needle +:+ post)
      with (String c (pre +:+ needle +:+ post)).
    cbv beta iota. rewrite IH. apply orb_true_r.
Qed.

End StrFacts.

Section Properties.
Context `{Platform}.
Variable host : Host.

(** ** Reasoning about [M]: weakest preconditions *)

(** [wp m w Q]: running [m] from the world [w] ends in an outcome and a
    world that satisfy [Q].  [M] is a total function, so this is total
    correctness. *)
Definition wp {A} (m : M A) (w : World) (Q : Outcome A → World → Prop) : Prop :=
  Q (m w).1 (m w).2.

Lemma wp_ret {A} (a : A) w Q : Q (Return a) w → wp (mret a) w Q.
Proof. exact id. Qed.

Lemma wp_throw {A} e w (Q : Outcome A → World → Prop) : Q (Throw e) w → wp (throw e) w Q.
Proof. exact id. Qed.

Lemma wp_lift {A} (o : Outcome A) w Q : Q o w → wp (lift o) w Q.
Proof. exact id. Qed.

Lemma wp_bind {A B} (m : M A) (f : A → M B) w Q :
  wp m w (λ o w', match o with
                  | Return a => wp (f a) w' Q
                  | Throw e => Q (Throw e) w'
                  end) →
  wp (m ≫= f) w Q.
Proof.
  unfold wp, mbind, M_bind. destruct (m w) as [[a|e] w']; simpl; auto.
Qed.

Lemma wp_try_catch {A} (m : M A) handler w Q :
  wp m w (λ o w', match o with
                  | Return a => Q (Return a) w'
                  | Throw e => wp (handler e) w' Q
                  end) →
  wp (try_catch m handler) w Q.
Proof.
  unfold wp, try_catch. destruct (m w) as [[a|e] w']; simpl; auto.
Qed.

Lemma wp_mono {A} (m : M A) w (Q Q' : Outcome A → World → Prop) :
  wp m w Q → (∀ o w', Q o w' → Q' o w') → wp m w Q'.
Proof. unfold wp; auto. Qed.

(** The world after one more request, and after one more write. *)
Definition sent (req : Request) (w : World) : World :=
  {| http_log := http_log w ++ [req]; fs_log := fs_log w; fs := fs w |}.

Definition written (path : string) (buffer : Buffer) (stored : bool) (w : World) : World :=
  {| http_log := http_log w;
     fs_log := fs_log w ++ [(path, buffer)];
     fs := if stored then <[path := buffer]> (fs w) else fs w |}.

Lemma wp_fetch req w Q :
  (∀ o, Q o (sent req w)) → wp (fetch host req) w Q.
Proof.
  intros HQ. unfold wp, fetch.
  destruct (backend host (http_log w) req); apply HQ.
Qed.

Lemma wp_writeFileSync path buffer w Q :
  (∀ o stored, Q o (written path buffer stored w)) →
  wp (writeFileSync host path buffer) w Q.
Proof.
  intros HQ. unfold wp, writeFileSync.
  destruct (disk_fault host (fs w) path).
  - apply (HQ _ false).
  - apply (HQ _ true).
Qed.

(** ** [callApi] *)

(** The value of [errorMsg] and the exception raised for a response that
    is not [ok]. *)
Definition error_text (res : Response) : JsVal :=
  match res_json res ≫= (λ errJson,
          get errJson "error" ≫= (λ e, Return (or_else e (stringify errJson)))) with
  | Return v => v
  | Throw _ => str ("HTTP " +:+ pretty (res_status res) +:+ " " +:+ res_statusText res)
  end.

Definition api_failure (res : Response) : Exn :=
  match to_str (error_text res) with
  | Return text => Error ("PageBolt API error: " +:+ text)
  | Throw e => e
  end.

Lemma callApi_run endpoint options w :
  callApi host endpoint options w =
  match requireApiKey host with
  | Throw e => (Throw e, w)
  | Return _ =>
      let req := api_request host endpoint options in
      match backend host (http_log w) req with
      | Rejected e => (Throw e, sent req w)
      | Responded res =>
          (if res_ok res then Return res else Throw (api_failure res), sent req w)
      end
  end.
Proof.
  unfold callApi, mbind, M_bind, lift, fetch, sent.
  destruct (requireApiKey host) as [[]|e]; [|reflexivity].
  cbn zeta.
  destruct (backend host (http_log w) _) as [res|e]; [|reflexivity].
  unfold api_failure, error_text, try_catch, mbind, M_bind, Outcome_bind, lift, throw, mret, M_ret.
  destruct (res_ok res); simpl; [reflexivity|].
  destruct (res_json res) as [errJson|e]; simpl.
  - destruct (get errJson "error") as [e|e]; simpl.
    + destruct (to_str (or_else e (stringify errJson))); reflexivity.
    + reflexivity.
  - reflexivity.
Qed.

Lemma wp_callApi endpoint options w Q :
  (∀ e, requireApiKey host = Throw e → Q (Throw e) w) →
  (requireApiKey host = Return tt →
   ∀ o, Q o (sent (api_request host endpoint options) w)) →
  wp (callApi host endpoint options) w Q.
Proof.
  intros Hkey Hsent. unfold wp. rewrite callApi_run.
  destruct (requireApiKey host) as [[]|e]; [|apply Hkey; reflexivity].
  cbn zeta.
  destruct (backend host (http_log w) _); apply Hsent; reflexivity.
Qed.


(** ** What one tool call does to the world *)

(** The options each handler passes to [callApi]. *)
Definition call_options (t : Tool) (params : Params) : Options :=
  match t with
  | TakeScreenshot | CreateOgImage => POST (setProp "response_type" (JStr "json") params)
  | GeneratePdf | RecordVideo =>
      POST (setProp "response_type" (JStr "json") (omitProp "saveTo" params))
  | RunSequence | InspectPage => POST params
  | ListDevices | CheckUsage => GET
  end.

(** The one request a call of tool [t] may issue. *)
Definition tool_request (t : Tool) (params : Params) : Request :=
  api_request host (endpoint t) (call_options t params).

Definition writes_file (t : Tool) : bool :=
  match t with
  | GeneratePdf | RecordVideo => true
  | _ => false
  end.

(** The worlds a call of tool [t] can end in, from the world [w]: nothing
    happened; the tool's request went out; or, for the two tools that save
    their payload, the request went out and [writeFileSync] was called once
    on a path that [safePath] returned. *)
Inductive Effects (t : Tool) (params : Params) (w : World) : World → Prop :=
  | no_effect :
      Effects t params w w
  | one_request :
      requireApiKey host = Return tt →
      Effects t params w (sent (tool_request t params) w)
  | one_request_one_write fallback path buffer stored :
      requireApiKey host = Return tt →
      writes_file t = true →
      safePath host (assoc "saveTo" params) fallback = Return path →
      Effects t params w (written path buffer stored (sent (tool_request t params) w)).

Ltac wp_step :=
  lazymatch goal with
  | |- wp (mbind _ _) _ _ => apply wp_bind
  | |- wp (mret _) _ _ => apply wp_ret
  | |- wp (lift _) _ _ => apply wp_lift
  | |- wp (throw _) _ _ => apply wp_throw
  | |- wp (try_catch _ _) _ _ => apply wp_try_catch
  | |- wp (callApi _ _ _) _ _ => apply wp_callApi; intros
  | |- wp (writeFileSync _ _ _) _ _ => apply wp_writeFileSync; intros
  | |- wp (if ?b then _ else _) _ _ => destruct b eqn:?
  | |- match ?o with Return _ => _ | Throw _ => _ end => destruct o eqn:?
  end; cbn beta.

Ltac wp_run := repeat wp_step.

Lemma handler_effects t params w :
  Effects t params w (handler host t params w).2.
Proof.
  change (wp (handler host t params) w (λ _ w', Effects t params w w')).
  destruct t; cbn [handler];
    [ unfold take_screenshot | unfold generate_pdf | unfold create_og_image
    | unfold run_sequence | unfold record_video | unfold inspect_page
    | unfold list_devices | unfold check_usage ];
    wp_run;
    first [ apply no_effect
          | apply one_request; assumption
          | eapply one_request_one_write; [assumption | reflexivity | eassumption] ].
Qed.


(** ** Requests *)

Lemma log_suffix {A} (l extra extra' : list A) :
  l ++ extra = l ++ extra' → extra = extra'.
Proof. apply app_inv_head. Qed.

Lemma log_unchanged {A} (l extra : list A) : l = l ++ extra → extra = [].
Proof.
  intros E. symmetry. apply (app_inv_head l). rewrite app_nil_r. exact E.
Qed.

(** What the handlers append to the request log. *)
Lemma handler_requests t params w :
  let w' := (handler host t params w).2 in
  http_log w' = http_log w ∨
  (requireApiKey host = Return tt ∧ http_log w' = http_log w ++ [tool_request t params]).
Proof.
  destruct (handler_effects t params w); simpl; auto.
Qed.

Lemma requireApiKey_key :
  requireApiKey host = Return tt →
  ∃ key, PAGEBOLT_API_KEY host = Some key ∧ key ≠ "".
Proof.
  unfold requireApiKey, API_KEY.
  destruct (PAGEBOLT_API_KEY host) as [[|c key]|]; try discriminate.
  intros _. eexists; split; [reflexivity | discriminate].
Qed.

(** C5: a tool call issues at most one HTTP request, to the endpoint of
    that tool on the configured backend, whatever the parameters are and
    however the backend and the disk behave; in particular nothing is sent
    again after a failure. *)
Theorem at_most_one_request t params w :
  let w' := (handler host t params w).2 in
  http_log w' = http_log w ∨
  ∃ req, http_log w' = http_log w ++ [req] ∧
         req_url req = BASE_URL host +:+ endpoint t.
Proof.
  destruct (handler_requests t params w) as [E|[_ E]]; [left; exact E|].
  right. exists (tool_request t params). split; [exact E | reflexivity].
Qed.

(** C7: every request a tool call issues carries the configured API key
    in its [x-api-key] header, and a request with a body also carries
    [Content-Type: application/json]. *)
Theorem requests_carry_api_key t params w issued req :
  http_log (handler host t params w).2 = http_log w ++ issued →
  req ∈ issued →
  ∃ key, PAGEBOLT_API_KEY host = Some key ∧ key ≠ "" ∧
         ("x-api-key", key) ∈ req_headers req ∧
         (req_body req = None ∨
          ("Content-Type", "application/json") ∈ req_headers req).
Proof.
  intros Hlog Hin.
  destruct (handler_requests t params w) as [E|[Hkey E]]; rewrite E in Hlog.
  - apply log_unchanged in Hlog. subst issued. inversion Hin.
  - apply log_suffix in Hlog. subst issued.
    apply list_elem_of_singleton in Hin. subst req.
    destruct (requireApiKey_key Hkey) as (key & Hk & Hne).
    exists key. repeat split; [exact Hk | exact Hne | |].
    + unfold tool_request, api_request, API_KEY; simpl. rewrite Hk. simpl. left.
    + unfold tool_request, api_request; simpl.
      destruct (truthy (opt_body (call_options t params))); [right|left; reflexivity].
      apply list_elem_of_In. simpl. auto.
Qed.

(** ** Files *)

(** The test of [safePath] on a resolved path. *)
Definition outside_cwd (resolved : string) : bool :=
  let rel := path_relative (cwd host) resolved in
  path_isAbsolute rel || Str.startsWith rel "..".

Lemma safePath_inside userPath defaultName path :
  safePath host userPath defaultName = Return path → outside_cwd path = false.
Proof.
  unfold safePath, outside_cwd, mbind, Outcome_bind.
  destruct (resolve host _) as [resolved|e]; [|discriminate].
  destruct (path_isAbsolute _ || Str.startsWith _ "..") eqn:E.
  - destruct (to_str userPath); discriminate.
  - intros [= <-]. exact E.
Qed.

(** C6: the only state a tool call leaves behind is the output file.
    generate_pdf and record_video call [writeFileSync] at most once, on a
    path that [safePath] accepted, and the disk changes at that path only;
    the other six tools never write. *)
Theorem only_output_file_persists t params w :
  let w' := (handler host t params w).2 in
  if writes_file t then
    (fs_log w' = fs_log w ∧ fs w' = fs w) ∨
    ∃ path buffer,
      outside_cwd path = false ∧
      fs_log w' = fs_log w ++ [(path, buffer)] ∧
      (fs w' = fs w ∨ fs w' = <[path := buffer]> (fs w))
  else fs_log w' = fs_log w ∧ fs w' = fs w.
Proof.
  destruct (handler_effects t params w)
    as [|Hkey|fallback path buffer stored Hkey Hwrites Hsafe]; simpl.
  - destruct (writes_file t); auto.
  - destruct (writes_file t); auto.
  - rewrite Hwrites. right. exists path, buffer.
    split; [exact (safePath_inside _ _ _ Hsafe)|].
    split; [reflexivity|]. destruct stored; auto.
Qed.

(** ** Parameter validation *)

(** The handlers' own test: every source field is falsy, or the steps are
    falsy or of length 0. *)
Definition lacks_source (t : Tool) (params : Params) : bool :=
  match t with
  | TakeScreenshot =>
      negb (truthy (assoc "url" params)) && negb (truthy (assoc "html" params))
      && negb (truthy (assoc "markdown" params))
  | GeneratePdf | InspectPage =>
      negb (truthy (assoc "url" params)) && negb (truthy (assoc "html" params))
  | RunSequence | RecordVideo =>
      match no_steps params with
      | Return invalid => invalid
      | Throw _ => false
      end
  | CreateOgImage | ListDevices | CheckUsage => false
  end.

(** The situation of claim C1: the source fields are all absent, or the
    steps are absent or an empty array. *)
Definition missing_source (t : Tool) (params : Params) : Prop :=
  match t with
  | TakeScreenshot =>
      assoc "url" params = None ∧ assoc "html" params = None ∧
      assoc "markdown" params = None
  | GeneratePdf | InspectPage =>
      assoc "url" params = None ∧ assoc "html" params = None
  | RunSequence | RecordVideo =>
      assoc "steps" params = None ∨ assoc "steps" params = Some (JArr [])
  | CreateOgImage | ListDevices | CheckUsage => False
  end.

Definition validation_message (t : Tool) : string :=
  match t with
  | TakeScreenshot =>
      "Error: One of " +:+ Str.dq +:+ "url" +:+ Str.dq +:+ ", " +:+
      Str.dq +:+ "html" +:+ Str.dq +:+ ", or " +:+
      Str.dq +:+ "markdown" +:+ Str.dq +:+ " is required."
  | GeneratePdf | InspectPage =>
      "Error: Either " +:+ Str.dq +:+ "url" +:+ Str.dq +:+ " or " +:+
      Str.dq +:+ "html" +:+ Str.dq +:+ " is required."
  | RunSequence | RecordVideo =>
      "Error: " +:+ Str.dq +:+ "steps" +:+ Str.dq +:+ " must be a non-empty array."
  | CreateOgImage | ListDevices | CheckUsage => ""
  end.

Lemma no_steps_total params : ∃ invalid, no_steps params = Return invalid.
Proof.
  unfold no_steps.
  destruct (truthy (assoc "steps" params)) eqn:E; simpl; [|eauto].
  destruct (assoc "steps" params) as [[]|]; simpl in *; try discriminate; eauto.
Qed.

Lemma missing_lacks t params : missing_source t params → lacks_source t params = true.
Proof.
  destruct t; simpl; try tauto.
  - intros (-> & -> & ->). reflexivity.
  - intros (-> & ->). reflexivity.
  - unfold no_steps. intros [-> | ->]; simpl; [reflexivity|].
    rewrite num_eqb_of_Z_0. reflexivity.
  - unfold no_steps. intros [-> | ->]; simpl; [reflexivity|].
    rewrite num_eqb_of_Z_0. reflexivity.
  - intros (-> & ->). reflexivity.
Qed.

Lemma handler_rejects t params w :
  lacks_source t params = true →
  handler host t params w = (Return (failure (validation_message t)), w).
Proof.
  destruct t; simpl; try discriminate.
  - unfold take_screenshot. intros ->. reflexivity.
  - unfold generate_pdf. intros ->. reflexivity.
  - unfold run_sequence, mbind, M_bind, lift.
    destruct (no_steps params) as [[]|]; try discriminate. reflexivity.
  - unfold record_video, mbind, M_bind, lift.
    destruct (no_steps params) as [[]|]; try discriminate. reflexivity.
  - unfold inspect_page. intros ->. reflexivity.
Qed.

(** C1: a call whose parameters lack every source field (take_screenshot
    without url, html and markdown; generate_pdf and inspect_page without
    url and html; run_sequence and record_video without steps or with an
    empty steps array) returns a result that is marked as an error and
    holds one text, the explanatory message of the tool, and leaves the
    world as it was: no HTTP request is issued. *)
Theorem missing_source_rejected t params w :
  missing_source t params →
  handler host t params w =
    (Return {| content := [TextItem (validation_message t)]; isError := true |}, w).
Proof.
  intros Hmissing.
  exact (handler_rejects t params w (missing_lacks t params Hmissing)).
Qed.

(** ** The API key *)

Definition key_error : Exn :=
  Error ("PAGEBOLT_API_KEY environment variable is required. " +:+
         "Get your free API key at https://pagebolt.dev").

(** The text that the [catch] of a handler puts before [err.message];
    [None] for the handlers that let the exception escape. *)
Definition catch_prefix (t : Tool) : option string :=
  match t with
  | RunSequence => Some "Sequence error: "
  | RecordVideo => Some "Video recording error: "
  | InspectPage => Some "Inspect error: "
  | _ => None
  end.

(** How an exception raised by [callApi] leaves the handler of [t]. *)
Definition surfaced (t : Tool) (e : Exn) : Outcome ToolResult :=
  match catch_prefix t with
  | Some prefix => Return (failure (prefix +:+ message e))
  | None => Throw e
  end.

Lemma requireApiKey_unset :
  PAGEBOLT_API_KEY host = None ∨ PAGEBOLT_API_KEY host = Some "" →
  requireApiKey host = Throw key_error.
Proof.
  unfold requireApiKey, API_KEY. intros [-> | ->]; reflexivity.
Qed.

(** A handler whose validation passes hands the failure of [callApi] on. *)
Lemma handler_callApi_throws t params w e w' :
  lacks_source t params = false →
  callApi host (endpoint t) (call_options t params) w = (Throw e, w') →
  handler host t params w = (surfaced t e, w').
Proof.
  intros Hvalid Hcall.
  destruct t; simpl in Hvalid, Hcall |- *.
  - unfold take_screenshot, mbind, M_bind. rewrite Hvalid, Hcall. reflexivity.
  - unfold generate_pdf, mbind, M_bind. rewrite Hvalid, Hcall. reflexivity.
  - unfold create_og_image, mbind, M_bind. rewrite Hcall. reflexivity.
  - unfold run_sequence, try_catch, mbind, M_bind, lift.
    destruct (no_steps_total params) as [invalid E]. rewrite E in Hvalid |- *.
    subst invalid. rewrite Hcall. reflexivity.
  - unfold record_video, try_catch, mbind, M_bind, lift.
    destruct (no_steps_total params) as [invalid E]. rewrite E in Hvalid |- *.
    subst invalid. rewrite Hcall. reflexivity.
  - unfold inspect_page, try_catch, mbind, M_bind. rewrite Hvalid, Hcall. reflexivity.
  - unfold list_devices, mbind, M_bind. rewrite Hcall. reflexivity.
  - unfold check_usage, mbind, M_bind. rewrite Hcall. reflexivity.
Qed.

(** C8: without an API key (the variable is unset or empty) no tool call
    reaches the network.  A call that passes validation fails with the
    error of [requireApiKey]: the handlers without [catch] throw it, the
    handlers with one return a result marked as an error whose one text is
    their prefix followed by the message; the world is left as it was.  (A
    call that does not pass validation is answered with the message of the
    validation, in a result of the same shape.) *)
Theorem missing_key_no_request t params w :
  PAGEBOLT_API_KEY host = None ∨ PAGEBOLT_API_KEY host = Some "" →
  handler host t params w =
    (if lacks_source t params
     then Return {| content := [TextItem (validation_message t)]; isError := true |}
     else match catch_prefix t with
          | Some prefix =>
              Return {| content := [TextItem (prefix +:+ message key_error)];
                        isError := true |}
          | None => Throw key_error
          end,
     w).
Proof.
  intros Hkey. destruct (lacks_source t params) eqn:Hvalid.
  - exact (handler_rejects t params w Hvalid).
  - refine (handler_callApi_throws t params w key_error w Hvalid _).
    rewrite callApi_run, (requireApiKey_unset Hkey). reflexivity.
Qed.

(** ** Backend failures *)

Lemma callApi_fails endpoint options w res :
  requireApiKey host = Return tt →
  backend host (http_log w) (api_request host endpoint options) = Responded res →
  res_ok res = false →
  callApi host endpoint options w =
    (Throw (api_failure res), sent (api_request host endpoint options) w).
Proof.
  intros Hkey Hres Hok. rewrite callApi_run, Hkey. cbn zeta. rewrite Hres, Hok.
  reflexivity.
Qed.

Lemma api_failure_error_field res props text :
  res_body res = Some (JObj props) →
  assoc "error" props = Some (JStr text) →
  api_failure res =
    Error ("PageBolt API error: " +:+
           if (text =? "")%string then JSON_stringify (JObj props) else text).
Proof.
  intros Hbody Herror.
  unfold api_failure, error_text, res_json. rewrite Hbody. simpl. rewrite Herror.
  unfold or_else. simpl. destruct (text =? "")%string; reflexivity.
Qed.

Lemma api_failure_not_json res :
  res_body res = None →
  api_failure res =
    Error ("PageBolt API error: HTTP " +:+ pretty (res_status res) +:+ " " +:+
           res_statusText res).
Proof.
  intros Hbody. unfold api_failure, error_text, res_json. rewrite Hbody. reflexivity.
Qed.

(** The failure of the backend as the caller of a tool sees it: thrown by
    the handlers without [catch], reported as an error result by the
    others; exactly one request went out. *)
Lemma handler_reports_backend_failure t params w res :
  lacks_source t params = false →
  requireApiKey host = Return tt →
  backend host (http_log w) (tool_request t params) = Responded res →
  res_ok res = false →
  handler host t params w =
    (surfaced t (api_failure res), sent (tool_request t params) w).
Proof.
  intros Hvalid Hkey Hres Hok.
  apply handler_callApi_throws; [exact Hvalid|].
  apply callApi_fails; assumption.
Qed.

(** C2, as amended: when the backend answers a tool call with a status
    outside 200..299, [callApi] throws, and the handler hands the exception
    to its caller after that one request: the handlers without [catch]
    throw it, the handlers with one return a result marked as an error
    whose one text is their prefix followed by the message.  If the body is
    a JSON object whose [error] field is a string, the message contains that
    string; more generally, for an [error] field that is truthy the message
    is [PageBolt API error: ] followed by the field as a template literal
    prints it, which for an object is not its content; if the body is not
    JSON, the message is built from the status code and the status text. *)
Theorem backend_failure_reported t params w res :
  lacks_source t params = false →
  requireApiKey host = Return tt →
  backend host (http_log w) (tool_request t params) = Responded res →
  res_ok res = false →
  ∃ e,
    (callApi host (endpoint t) (call_options t params) w).1 = Throw e ∧
    handler host t params w =
      (match catch_prefix t with
       | Some prefix =>
           Return {| content := [TextItem (prefix +:+ message e)]; isError := true |}
       | None => Throw e
       end,
       sent (tool_request t params) w) ∧
    (∀ props text,
       res_body res = Some (JObj props) →
       assoc "error" props = Some (JStr text) →
       ∃ msg, e = Error msg ∧ Str.occurs text msg) ∧
    (∀ body error text,
       res_body res = Some body →
       get (Some body) "error" = Return error →
       truthy error = true →
       to_str error = Return text →
       e = Error ("PageBolt API error: " +:+ text)) ∧
    (res_body res = None →
     e = Error ("PageBolt API error: HTTP " +:+ pretty (res_status res) +:+ " " +:+
                res_statusText res)).
Proof.
  intros Hvalid Hkey Hres Hok. exists (api_failure res).
  split; [|split; [|split; [|split]]].
  - unfold tool_request in Hres.
    rewrite (callApi_fails _ _ _ _ Hkey Hres Hok). reflexivity.
  - exact (handler_reports_backend_failure t params w res Hvalid Hkey Hres Hok).
  - intros props text Hbody Herror.
    rewrite (api_failure_error_field _ _ _ Hbody Herror).
    eexists; split; [reflexivity|].
    destruct (text =? "")%string eqn:E.
    + apply String.eqb_eq in E. subst text. apply StrFacts.occurs_empty.
    + apply StrFacts.occurs_append_l, StrFacts.occurs_refl.
  - intros body error text Hbody Herror Htruthy Htext.
    unfold api_failure, error_text, res_json. rewrite Hbody.
    change (Return (Some body) ≫= ?f) with (f (Some body)). cbv beta.
    rewrite Herror.
    change (Return error ≫= ?f) with (f error). cbv beta.
    unfold or_else. rewrite Htruthy, Htext. reflexivity.
  - apply api_failure_not_json.
Qed.

(** ** Output paths *)

Definition outside_message (userPath : string) : string :=
  "saveTo path must be within the current working directory. " +:+
  "Got " +:+ Str.dq +:+ userPath +:+ Str.dq +:+
  ", which resolves outside CWD (" +:+ cwd host +:+ ").".

Lemma safePath_outside p defaultName :
  p ≠ "" →
  outside_cwd (path_resolve (cwd host) p) = true →
  safePath host (Some (JStr p)) defaultName = Throw (Error (outside_message p)).
Proof.
  intros Hp Hout. unfold safePath, or_else.
  assert (truthy (Some (JStr p)) = true) as ->.
  { simpl. destruct (String.eqb_spec p ""); [contradiction | reflexivity]. }
  simpl. unfold outside_cwd in Hout. cbn zeta in Hout. rewrite Hout. reflexivity.
Qed.

(** C3: a [saveTo] that resolves outside the working directory (its path
    relative to the working directory is absolute or starts with [..]) makes
    [safePath] throw, and the call of the tool then performs no write at
    all: [writeFileSync] is not called and the disk is unchanged. *)
Theorem path_outside_cwd_rejected t params w p :
  assoc "saveTo" params = Some (JStr p) →
  p ≠ "" →
  outside_cwd (path_resolve (cwd host) p) = true →
  (∀ defaultName,
     safePath host (Some (JStr p)) defaultName = Throw (Error (outside_message p))) ∧
  fs_log (handler host t params w).2 = fs_log w ∧
  fs (handler host t params w).2 = fs w.
Proof.
  intros HsaveTo Hp Hout. split.
  - intros defaultName. apply safePath_outside; assumption.
  - destruct (handler_effects t params w)
      as [|Hkey|fallback path buffer stored Hkey Hwrites Hsafe]; simpl; auto.
    rewrite HsaveTo, (safePath_outside _ _ Hp Hout) in Hsafe. discriminate.
Qed.

(** ** Successful answers *)

Lemma callApi_ok endpoint options w res :
  requireApiKey host = Return tt →
  backend host (http_log w) (api_request host endpoint options) = Responded res →
  res_ok res = true →
  callApi host endpoint options w =
    (Return res, sent (api_request host endpoint options) w).
Proof.
  intros Hkey Hres Hok. rewrite callApi_run, Hkey. cbn zeta. rewrite Hres, Hok.
  reflexivity.
Qed.

(** A call is answered when the key is configured, the parameters pass
    validation, and the backend answers the tool's request with a status
    in 200..299 and the JSON body [data]. *)
Definition answered (t : Tool) (params : Params) (w : World) (data : Json) : Prop :=
  requireApiKey host = Return tt ∧
  lacks_source t params = false ∧
  ∃ res, backend host (http_log w) (tool_request t params) = Responded res ∧
         res_ok res = true ∧ res_body res = Some data.

Lemma answered_callApi t params w data :
  answered t params w data →
  ∃ res, callApi host (endpoint t) (call_options t params) w =
           (Return res, sent (tool_request t params) w) ∧
         res_json res = Return (Some data).
Proof.
  intros (Hkey & _ & res & Hres & Hok & Hbody).
  exists res. split; [apply callApi_ok; assumption|].
  unfold res_json. rewrite Hbody. reflexivity.
Qed.

(** *** check_usage *)



(** ** Answers that can be printed *)

(** A value that is neither an array nor an object: converting it to a
    string or to a number cannot throw. *)
Definition flat (v : JsVal) : bool :=
  match v with
  | Some (JArr _) | Some (JObj _) => false
  | _ => true
  end.

(** The string and the number that a value converts to. *)
Definition print (v : JsVal) : string :=
  match to_str v with
  | Return s => s
  | Throw _ => ""
  end.

Definition number (v : JsVal) : num :=
  match to_num v with
  | Return n => n
  | Throw _ => num_nan
  end.

Lemma to_str_flat v : flat v = true → to_str v = Return (print v).
Proof. unfold print. destruct v as [[]|]; simpl; congruence. Qed.

Lemma to_num_flat v : flat v = true → to_num v = Return (number v).
Proof. unfold number. destruct v as [[]|]; simpl; congruence. Qed.

Lemma show_flat props k :
  flat (assoc k props) = true →
  show (Some (JObj props)) k = Return (print (assoc k props)).
Proof. intros Hflat. unfold show. simpl. apply to_str_flat, Hflat. Qed.

Lemma scaled_flat v d :
  flat v = true →
  scaled v d = Return (num_toFixed (num_div (number v) (num_of_Z d)) 1).
Proof. intros Hflat. unfold scaled. rewrite (to_num_flat _ Hflat). reflexivity. Qed.

(** ** Saving the payload *)

(** [ext] in record_video. *)
Definition video_ext (params : Params) : JsVal :=
  let format := or_else (assoc "format" params) (str "mp4") in
  if is_str format "gif" then str "gif" else format.

(** The second argument of [safePath] in the two handlers that save. *)
Definition default_name (t : Tool) (params : Params) : string :=
  match t with
  | RecordVideo => "./recording." +:+ print (video_ext params)
  | _ => "./output.pdf"
  end.

(** The fields that the text of the result prints. *)
Definition printable (t : Tool) (params : Params) (props : list (string * Json)) : Prop :=
  match t with
  | RecordVideo =>
      flat (assoc "format" params) = true ∧
      Forall (λ k, flat (assoc k props) = true)
        ["duration_ms"; "format"; "size_bytes"; "frames"; "steps_completed";
         "total_steps"] ∧
      ∃ usage, assoc "usage" props = Some (JObj usage) ∧
               flat (assoc "video_cost" usage) = true ∧
               flat (assoc "remaining" usage) = true
  | _ =>
      flat (assoc "size_bytes" props) = true ∧
      flat (assoc "duration_ms" props) = true
  end.

(** The attempt to save fails: [safePath] rejects the destination, the
    payload cannot be decoded, or the disk refuses the write. *)
Definition save_fails (t : Tool) (params : Params) (props : list (string * Json))
    (w : World) : Prop :=
  match safePath host (assoc "saveTo" params) (default_name t params) with
  | Throw _ => True
  | Return path =>
      match Buffer_from_base64 (assoc "data" props) with
      | Throw _ => True
      | Return _ => is_Some (disk_fault host (fs w) path)
      end
  end.

Lemma generate_pdf_not_saved params w props :
  answered GeneratePdf params w (JObj props) →
  printable GeneratePdf params props →
  save_fails GeneratePdf params props w →
  (generate_pdf host params w).1 =
    Return (success
      [ResourceItem "pagebolt://pdf/output.pdf" (FVal (str "application/pdf"))
         (assoc "data" props);
       TextItem ("PDF generated successfully." +:+ Str.nl +:+
                 "  File: (not saved to disk — use the embedded resource data below)"
                 +:+ Str.nl +:+
                 "  Size: " +:+ print (assoc "size_bytes" props) +:+ " bytes" +:+ Str.nl +:+
                 "  Duration: " +:+ print (assoc "duration_ms" props) +:+ "ms")]).
Proof.
  intros Hans [Hsize Hduration] Hfails.
  destruct (answered_callApi _ _ _ _ Hans) as (res & Hcall & Hjson).
  destruct Hans as (_ & Hvalid & _). simpl in Hvalid, Hcall.
  unfold generate_pdf. rewrite Hvalid.
  unfold mbind at 1, M_bind. rewrite Hcall.
  unfold mbind at 1, M_bind, lift at 1. rewrite Hjson.
  unfold mbind at 1, M_bind.
  match goal with
  | |- context [try_catch ?m ?h ?w1] =>
      assert (∃ w', try_catch m h w1 = (Return None, w')) as [w' ->]
  end.
  { unfold save_fails in Hfails. simpl in Hfails.
    unfold try_catch, mbind, M_bind, lift, writeFileSync. simpl.
    destruct (safePath host _ _); [|eauto].
    destruct (Buffer_from_base64 _); [|eauto].
    destruct Hfails as [e ->]. eauto. }
  simpl. rewrite !show_flat by assumption. reflexivity.
Qed.

Lemma wp_eq {A} (m : M A) w o w' (Q : Outcome A → World → Prop) :
  m w = (o, w') → Q o w' → wp m w Q.
Proof. unfold wp. intros ->. exact id. Qed.

Lemma flat_video_ext params :
  flat (assoc "format" params) = true → flat (video_ext params) = true.
Proof.
  unfold video_ext, or_else. intros Hflat.
  destruct (truthy (assoc "format" params)); simpl.
  - destruct (is_str _ "gif"); [reflexivity | exact Hflat].
  - reflexivity.
Qed.

(** [videoMimeTypes[ext] || 'video/mp4'] *)
Definition video_mime (params : Params) : Field :=
  match lookup_or [("mp4", "video/mp4"); ("webm", "video/webm"); ("gif", "image/gif")]
          (video_ext params) "video/mp4" with
  | Return mime => mime
  | Throw _ => FVal undefined
  end.

Lemma video_mime_flat params :
  flat (assoc "format" params) = true →
  lookup_or [("mp4", "video/mp4"); ("webm", "video/webm"); ("gif", "image/gif")]
    (video_ext params) "video/mp4" = Return (video_mime params).
Proof.
  intros Hflat. unfold video_mime, lookup_or.
  rewrite (to_str_flat _ (flat_video_ext _ Hflat)). simpl.
  repeat case_match; reflexivity.
Qed.

Lemma record_video_not_saved params w props usage :
  answered RecordVideo params w (JObj props) →
  printable RecordVideo params props →
  assoc "usage" props = Some (JObj usage) →
  save_fails RecordVideo params props w →
  (record_video host params w).1 =
    Return (success
      [ResourceItem ("pagebolt://video/recording." +:+ print (video_ext params))
         (video_mime params) (assoc "data" props);
       TextItem
         ("Video recorded successfully." +:+ Str.nl +:+
          "  File:     (not saved to disk — use the embedded resource data below)"
          +:+ Str.nl +:+
          "  Format:   " +:+ print (assoc "format" props) +:+ Str.nl +:+
          "  Size:     " +:+
          num_toFixed (num_div (number (assoc "size_bytes" props)) (num_of_Z 1024)) 1
          +:+ " KB" +:+ Str.nl +:+
          "  Duration: " +:+
          num_toFixed (num_div (number (assoc "duration_ms" props)) (num_of_Z 1000)) 1
          +:+ "s" +:+ Str.nl +:+
          "  Frames:   " +:+ print (assoc "frames" props) +:+ Str.nl +:+
          "  Steps:    " +:+ print (assoc "steps_completed" props) +:+ "/" +:+
          print (assoc "total_steps" props) +:+ " completed" +:+ Str.nl +:+
          "  Cost:     " +:+ print (assoc "video_cost" usage) +:+ " API requests"
          +:+ Str.nl +:+
          "  Remaining: " +:+ print (assoc "remaining" usage) +:+ " requests")]).
Proof.
  intros Hans (Hformat & Hfields & usage' & Husage' & Hcost & Hremaining) Husage Hfails.
  rewrite Husage in Husage'. injection Husage' as <-.
  repeat (apply Forall_cons in Hfields as [? Hfields]).
  destruct (answered_callApi _ _ _ _ Hans) as (res & Hcall & Hjson).
  destruct Hans as (_ & Hvalid & _). simpl in Hvalid, Hcall.
  destruct (no_steps_total params) as [invalid Hsteps].
  rewrite Hsteps in Hvalid. subst invalid.
  pose proof (flat_video_ext _ Hformat) as Hext.
  match goal with
  | |- _ = ?r => change (wp (record_video host params) w (λ o _, o = r))
  end.
  unfold record_video.
  apply wp_bind, wp_lift. rewrite Hsteps. cbv beta iota.
  apply wp_try_catch, wp_bind. eapply wp_eq; [exact Hcall|]. cbv beta iota.
  apply wp_bind, wp_lift. rewrite Hjson. cbv beta iota zeta.
  fold (video_ext params).
  apply wp_bind, wp_lift. rewrite (video_mime_flat _ Hformat). cbv beta iota.
  apply wp_bind.
  match goal with
  | |- wp (try_catch ?m ?h) ?w1 _ =>
      assert (∃ w', try_catch m h w1 = (Return None, w')) as [w' Hsave]
  end.
  { unfold save_fails in Hfails. simpl in Hfails.
    unfold try_catch, mbind, M_bind, lift, writeFileSync.
    rewrite (to_str_flat _ Hext). simpl.
    destruct (safePath host _ _); [|eauto].
    destruct (Buffer_from_base64 _); [|eauto].
    destruct Hfails as [e ->]. eauto. }
  eapply wp_eq; [exact Hsave|]. cbv beta iota.
  apply wp_lift. simpl.
  rewrite !scaled_flat, (to_str_flat _ Hext), Husage by assumption. simpl.
  rewrite !show_flat by assumption.
  reflexivity.
Qed.

(** C9: when generate_pdf or record_video cannot save the payload
    ([safePath] rejects the path, the payload cannot be decoded, or the
    write fails), the call still returns a result that is not an error: the
    payload of the answer as an embedded resource, and a text saying that
    the file was not saved to disk. *)
Theorem save_failure_is_not_an_error t params w props :
  writes_file t = true →
  answered t params w (JObj props) →
  printable t params props →
  save_fails t params props w →
  ∃ uri mime text,
    (handler host t params w).1 =
      Return {| content := [ResourceItem uri mime (assoc "data" props); TextItem text];
                isError := false |} ∧
    Str.occurs "(not saved to disk" text.
Proof.
  intros Hwrites Hans Hprint Hfails.
  destruct t; try discriminate; cbn [handler].
  - do 3 eexists. split.
    + apply generate_pdf_not_saved; assumption.
    + exists ("PDF generated successfully." +:+ Str.nl +:+ "  File: ").
      eexists. rewrite !StrFacts.append_assoc. reflexivity.
  - destruct Hprint as (Hformat & Hfields & usage & Husage & Hcost & Hremaining).
    do 3 eexists. split.
    + apply (record_video_not_saved params w props usage); try assumption.
      repeat split; eauto.
    + exists ("Video recorded successfully." +:+ Str.nl +:+ "  File:     ").
      eexists. rewrite !StrFacts.append_assoc. reflexivity.
Qed.

(** ** What the result says about size and duration *)

Lemma bind_Return {A B} (o : Outcome A) (f : A → Outcome B) b :
  o ≫= f = Return b → ∃ a, o = Return a ∧ f a = Return b.
Proof. destruct o as [a|e]; [eauto | discriminate]. Qed.

Ltac bind_inv H :=
  repeat
    (let a := fresh "a" in
     let E := fresh "E" in
     apply bind_Return in H as (a & E & H); cbv beta in H).

Lemma wp_result {A} (m : M A) w (P : A → Prop) :
  wp m w (λ o _, ∀ a, o = Return a → P a) →
  ∀ a, (m w).1 = Return a → P a.
Proof. unfold wp. auto. Qed.

(** A [try] block whose [catch] returns a value never throws. *)
Lemma wp_try_catch_returns {A} (m : M A) (fallback : A) w Q :
  (∀ a w', Q (Return a) w') → wp (try_catch m (λ _, mret fallback)) w Q.
Proof.
  intros HQ. unfold wp, try_catch. destruct (m w) as [[a|e] w']; apply HQ.
Qed.

(** [r] has a text item in which [needle] occurs. *)
Definition reports (needle : string) (r : ToolResult) : Prop :=
  ∃ text, TextItem text ∈ content r ∧ Str.occurs needle text.

Lemma reports_app needle items more :
  reports needle (success items) → reports needle (success (items ++ more)).
Proof.
  intros (text & Hin & Hocc). exists text. split; [|exact Hocc].
  simpl in *. apply elem_of_app. left. exact Hin.
Qed.

Ltac occurs_at pre :=
  exists pre; eexists; rewrite ?StrFacts.append_assoc; reflexivity.

Ltac in_list :=
  simpl;
  repeat first [ apply list_elem_of_here
               | apply list_elem_of_further
               | apply elem_of_app; left ].

(** What each tool says about the size and the duration in the answer
    [data]: take_screenshot, generate_pdf and create_og_image print
    [size_bytes] and [duration_ms] as they are; inspect_page prints
    [duration_ms] as it is; run_sequence prints the [size_bytes] of every
    screenshot or PDF output and the [total_duration_ms] as they are;
    record_video prints [size_bytes / 1024] and [duration_ms / 1000] with
    one decimal. *)
Definition size_and_duration (t : Tool) (data : JsVal) (r : ToolResult) : Prop :=
  match t with
  | TakeScreenshot | GeneratePdf | CreateOgImage =>
      ∃ size duration,
        show data "size_bytes" = Return size ∧
        show data "duration_ms" = Return duration ∧
        reports ("Size: " +:+ size +:+ " bytes") r ∧
        reports ("Duration: " +:+ duration +:+ "ms") r
  | InspectPage =>
      ∃ duration,
        show data "duration_ms" = Return duration ∧
        reports ("Duration: " +:+ duration +:+ "ms") r
  | RunSequence =>
      (∃ duration,
         show data "total_duration_ms" = Return duration ∧
         reports (duration +:+ "ms total.") r) ∧
      ∀ outputs items output type,
        get data "outputs" = Return outputs →
        iterate outputs = Return items →
        output ∈ items →
        get output "type" = Return type →
        is_str type "screenshot" || is_str type "pdf" = true →
        ∃ size,
          show output "size_bytes" = Return size ∧
          reports (", " +:+ size +:+ " bytes, step ") r
  | RecordVideo =>
      ∃ size duration,
        (v ← get data "size_bytes"; scaled v 1024) = Return size ∧
        (v ← get data "duration_ms"; scaled v 1000) = Return duration ∧
        reports ("Size:     " +:+ size +:+ " KB") r ∧
        reports ("Duration: " +:+ duration +:+ "s") r
  | ListDevices | CheckUsage => True
  end.

Lemma take_screenshot_reports params w data r :
  answered TakeScreenshot params w data →
  (take_screenshot host params w).1 = Return r →
  size_and_duration TakeScreenshot (Some data) r.
Proof.
  intros Hans.
  destruct (answered_callApi _ _ _ _ Hans) as (res & Hcall & Hjson).
  destruct Hans as (_ & Hvalid & _). simpl in Hvalid, Hcall.
  revert r. apply wp_result.
  unfold take_screenshot. rewrite Hvalid.
  apply wp_bind. eapply wp_eq; [exact Hcall|]. cbv beta iota.
  apply wp_bind, wp_lift. rewrite Hjson. cbv beta iota.
  apply wp_lift. intros r Hr. cbv zeta in Hr. bind_inv Hr.
  do 2 eexists. split; [eassumption|]. split; [eassumption|].
  assert (∃ more, content r =
    [ImageItem a a0;
     TextItem ("Screenshot captured successfully. Format: " +:+ a1 +:+ ", Size: " +:+
               a2 +:+ " bytes, Duration: " +:+ a3 +:+ "ms")] ++ more) as [more Hr'].
  { destruct a4 as [j|]; [destruct (truthy (Some j))|]; injection Hr as <-;
      eexists; simpl; try reflexivity; rewrite app_nil_r; reflexivity. }
  split; eexists; (split; [rewrite Hr'; in_list|]).
  - occurs_at ("Screenshot captured successfully. Format: " +:+ a1 +:+ ", ").
  - occurs_at ("Screenshot captured successfully. Format: " +:+ a1 +:+ ", Size: " +:+
               a2 +:+ " bytes, ").
Qed.

Lemma create_og_image_reports params w data r :
  answered CreateOgImage params w data →
  (create_og_image host params w).1 = Return r →
  size_and_duration CreateOgImage (Some data) r.
Proof.
  intros Hans.
  destruct (answered_callApi _ _ _ _ Hans) as (res & Hcall & Hjson).
  simpl in Hcall.
  revert r. apply wp_result.
  unfold create_og_image.
  apply wp_bind. eapply wp_eq; [exact Hcall|]. cbv beta iota.
  apply wp_bind, wp_lift. rewrite Hjson. cbv beta iota.
  apply wp_lift. intros r Hr. cbv zeta in Hr. bind_inv Hr.
  injection Hr as <-.
  do 2 eexists. split; [eassumption|]. split; [eassumption|].
  split; eexists; (split; [in_list|]).
  - occurs_at ("OG image created successfully. Format: " +:+ a1 +:+ ", ").
  - occurs_at ("OG image created successfully. Format: " +:+ a1 +:+ ", Size: " +:+
               a2 +:+ " bytes, ").
Qed.

Lemma generate_pdf_reports params w data r :
  answered GeneratePdf params w data →
  (generate_pdf host params w).1 = Return r →
  size_and_duration GeneratePdf (Some data) r.
Proof.
  intros Hans.
  destruct (answered_callApi _ _ _ _ Hans) as (res & Hcall & Hjson).
  destruct Hans as (_ & Hvalid & _). simpl in Hvalid, Hcall.
  revert r. apply wp_result.
  unfold generate_pdf. rewrite Hvalid.
  apply wp_bind. eapply wp_eq; [exact Hcall|]. cbv beta iota.
  apply wp_bind, wp_lift. rewrite Hjson. cbv beta iota.
  apply wp_bind, wp_try_catch_returns. intros savedPath w'.
  apply wp_lift. intros r Hr. bind_inv Hr.
  injection Hr as <-.
  do 2 eexists. split; [eassumption|]. split; [eassumption|].
  split; eexists; (split; [in_list|]).
  - match goal with
    | |- Str.occurs _ (?head +:+ ?nl +:+ ?note +:+ _) =>
        occurs_at (head +:+ nl +:+ note +:+ nl +:+ "  ")
    end.
  - match goal with
    | |- Str.occurs _ (?head +:+ ?nl +:+ ?note +:+ _) =>
        occurs_at (head +:+ nl +:+ note +:+ nl +:+ "  Size: " +:+ a0 +:+ " bytes" +:+
                   nl +:+ "  ")
    end.
Qed.

Lemma occurs_join_last sep lines last :
  Str.occurs last (Str.join sep (lines ++ [last])).
Proof.
  induction lines as [|line lines IH].
  - apply StrFacts.occurs_refl.
  - destruct lines as [|next lines];
      apply (StrFacts.occurs_append_l _ _ line), StrFacts.occurs_append_l, IH.
Qed.

Lemma inspect_page_reports params w data r :
  answered InspectPage params w data →
  (inspect_page host params w).1 = Return r →
  isError r = false →
  size_and_duration InspectPage (Some data) r.
Proof.
  intros Hans.
  destruct (answered_callApi _ _ _ _ Hans) as (res & Hcall & Hjson).
  destruct Hans as (_ & Hvalid & _). simpl in Hvalid, Hcall.
  revert r.
  apply (wp_result _ _ (λ r, isError r = false →
                             size_and_duration InspectPage (Some data) r)).
  unfold inspect_page. rewrite Hvalid.
  apply wp_try_catch, wp_bind. eapply wp_eq; [exact Hcall|]. cbv beta iota.
  apply wp_bind, wp_lift. rewrite Hjson. cbv beta iota.
  apply wp_lift.
  destruct (inspect_result params (Some data)) as [r'|e] eqn:Hres.
  - intros r [= <-] _. unfold inspect_result in Hres. bind_inv Hres.
    injection Hres as <-.
    eexists. split; [eassumption|].
    eexists. split; [in_list|]. apply occurs_join_last.
  - apply wp_ret. intros r [= <-]. discriminate.
Qed.

Lemma push_output_extends content output content' :
  push_output content output = Return content' →
  ∃ extra, content' = content ++ extra.
Proof.
  unfold push_output. intros Hpush. bind_inv Hpush.
  destruct (is_str a "screenshot"); [|destruct (is_str a "pdf")];
    bind_inv Hpush; injection Hpush as <-; eauto.
  exists []. symmetry. apply app_nil_r.
Qed.

Lemma push_output_reports content output content' type :
  push_output content output = Return content' →
  get output "type" = Return type →
  is_str type "screenshot" || is_str type "pdf" = true →
  ∃ size,
    show output "size_bytes" = Return size ∧
    reports (", " +:+ size +:+ " bytes, step ") (success content').
Proof.
  unfold push_output. intros Hpush Htype Hkind. rewrite Htype in Hpush.
  simpl in Hpush.
  destruct (is_str type "screenshot"); [|destruct (is_str type "pdf")];
    [| |discriminate]; bind_inv Hpush; injection Hpush as <-;
    (eexists; split; [eassumption|]);
    (eexists; split; [simpl; apply elem_of_app; right; in_list|]).
  - match goal with
    | |- Str.occurs _ (?a +:+ ?name +:+ ?b +:+ ?format +:+ _) =>
        occurs_at (a +:+ name +:+ b +:+ format)
    end.
  - match goal with
    | |- Str.occurs _ (?a +:+ ?name +:+ ?b +:+ ?format +:+ _) =>
        occurs_at (a +:+ name +:+ b +:+ format)
    end.
Qed.

Lemma foldM_push_output items :
  ∀ acc content,
    foldM push_output items acc = Return content →
    (∃ extra, content = acc ++ extra) ∧
    ∀ output type,
      output ∈ items →
      get output "type" = Return type →
      is_str type "screenshot" || is_str type "pdf" = true →
      ∃ size,
        show output "size_bytes" = Return size ∧
        reports (", " +:+ size +:+ " bytes, step ") (success content).
Proof.
  induction items as [|item items IH]; intros acc content Hfold; simpl in Hfold.
  - injection Hfold as <-. split.
    + exists []. symmetry. apply app_nil_r.
    + intros output type Hin. inversion Hin.
  - apply bind_Return in Hfold as (acc' & Hpush & Hfold).
    destruct (IH _ _ Hfold) as ([extra ->] & Hrest).
    destruct (push_output_extends _ _ _ Hpush) as [extra' ->].
    split.
    + exists (extra' ++ extra). symmetry. apply app_assoc.
    + intros output type Hin Htype Hkind.
      apply elem_of_cons in Hin as [-> | Hin].
      * destruct (push_output_reports _ _ _ _ Hpush Htype Hkind) as (size & Hsize & Hrep).
        exists size. split; [exact Hsize|]. apply reports_app, Hrep.
      * eapply Hrest; eassumption.
Qed.

Lemma run_sequence_reports params w data r :
  answered RunSequence params w data →
  (run_sequence host params w).1 = Return r →
  isError r = false →
  size_and_duration RunSequence (Some data) r.
Proof.
  intros Hans.
  destruct (answered_callApi _ _ _ _ Hans) as (res & Hcall & Hjson).
  destruct Hans as (_ & Hvalid & _). simpl in Hvalid, Hcall.
  destruct (no_steps_total params) as [invalid Hsteps].
  rewrite Hsteps in Hvalid. subst invalid.
  revert r.
  apply (wp_result _ _ (λ r, isError r = false →
                             size_and_duration RunSequence (Some data) r)).
  unfold run_sequence.
  apply wp_bind, wp_lift. rewrite Hsteps. cbv beta iota.
  apply wp_try_catch, wp_bind. eapply wp_eq; [exact Hcall|]. cbv beta iota.
  apply wp_bind, wp_lift. rewrite Hjson. cbv beta iota.
  apply wp_lift.
  destruct (sequence_result (Some data)) as [r'|e] eqn:Hres.
  - intros r [= <-] _. unfold sequence_result in Hres.
    apply bind_Return in Hres as (outputs & Houtputs & Hres).
    apply bind_Return in Hres as (items & Hitems & Hres).
    apply bind_Return in Hres as (content & Hcontent & Hres).
    bind_inv Hres. injection Hres as <-.
    split.
    + eexists. split; [eassumption|].
      eexists. split; [simpl; apply elem_of_app; right; in_list|].
      apply StrFacts.occurs_append_r.
      match goal with
      | Hsummary : match ?failed with [] => _ | _ => _ end = Return ?summary |- _ =>
          destruct failed; [injection Hsummary as <-
                           |bind_inv Hsummary; injection Hsummary as <-;
                            apply StrFacts.occurs_append_r]
      end;
      match goal with
      | |- Str.occurs _ (?a +:+ ?completed +:+ ?b +:+ ?total +:+ ?c +:+ ?count +:+ ?d +:+ _) =>
          occurs_at (a +:+ completed +:+ b +:+ total +:+ c +:+ count +:+ d)
      end.
    + intros outputs' items' output type Houtputs' Hitems' Hin Htype Hkind.
      rewrite Houtputs in Houtputs'. injection Houtputs' as <-.
      rewrite Hitems in Hitems'. injection Hitems' as <-.
      destruct (foldM_push_output _ _ _ Hcontent) as [_ Hreported].
      destruct (Hreported _ _ Hin Htype Hkind) as (size & Hsize & Hrep).
      exists size. split; [exact Hsize|]. apply reports_app, Hrep.
  - apply wp_ret. intros r [= <-]. discriminate.
Qed.

Lemma record_video_reports params w data r :
  answered RecordVideo params w data →
  (record_video host params w).1 = Return r →
  isError r = false →
  size_and_duration RecordVideo (Some data) r.
Proof.
  intros Hans.
  destruct (answered_callApi _ _ _ _ Hans) as (res & Hcall & Hjson).
  destruct Hans as (_ & Hvalid & _). simpl in Hvalid, Hcall.
  destruct (no_steps_total params) as [invalid Hsteps].
  rewrite Hsteps in Hvalid. subst invalid.
  revert r.
  apply (wp_result _ _ (λ r, isError r = false →
                             size_and_duration RecordVideo (Some data) r)).
  unfold record_video.
  apply wp_bind, wp_lift. rewrite Hsteps. cbv beta iota.
  apply wp_try_catch, wp_bind. eapply wp_eq; [exact Hcall|]. cbv beta iota.
  apply wp_bind, wp_lift. rewrite Hjson. cbv beta iota zeta.
  apply wp_bind, wp_lift.
  destruct (lookup_or _ _ _) as [mime|e]; cbv beta iota;
    [|apply wp_ret; intros r [= <-]; discriminate].
  apply wp_bind, wp_try_catch_returns. intros savedPath w'.
  apply wp_lift.
  match goal with
  | |- match ?result with Return _ => _ | Throw _ => _ end =>
      destruct result as [r'|e] eqn:Hres
  end; [|apply wp_ret; intros r [= <-]; discriminate].
  intros r [= <-] _.
  apply bind_Return in Hres as (duration_ms & Hduration_ms & Hres).
  apply bind_Return in Hres as (durationSec & HdurationSec & Hres).
  cbv zeta in Hres.
  apply bind_Return in Hres as (ext & _ & Hres).
  apply bind_Return in Hres as (blob & _ & Hres).
  apply bind_Return in Hres as (format & _ & Hres).
  apply bind_Return in Hres as (size_bytes & Hsize_bytes & Hres).
  apply bind_Return in Hres as (size & Hsize & Hres).
  bind_inv Hres. injection Hres as <-.
  exists size, durationSec.
  split; [rewrite Hsize_bytes; exact Hsize|].
  split; [rewrite Hduration_ms; exact HdurationSec|].
  split; eexists; (split; [in_list|]).
  - match goal with
    | |- Str.occurs _ (?head +:+ ?nl +:+ ?note +:+ ?a +:+ ?fmt +:+ _) =>
        occurs_at (head +:+ nl +:+ note +:+ a +:+ fmt +:+ nl +:+ "  ")
    end.
  - match goal with
    | |- Str.occurs _ (?head +:+ ?nl +:+ ?note +:+ ?a +:+ ?fmt +:+ _) =>
        occurs_at (head +:+ nl +:+ note +:+ a +:+ fmt +:+ nl +:+ "  Size:     " +:+
                   size +:+ " KB" +:+ nl +:+ "  ")
    end.
Qed.

(** C4, as the code has it: for an answered call that returns a result
    that is not an error, take_screenshot, generate_pdf and create_og_image
    print [size_bytes] and [duration_ms] of the answer as they are;
    inspect_page prints [duration_ms] as it is; run_sequence prints the
    [size_bytes] of every screenshot or PDF output and [total_duration_ms]
    as they are; record_video prints [size_bytes / 1024] in KB and
    [duration_ms / 1000] in seconds, each with one decimal. *)
Theorem size_and_duration_reported t params w data r :
  answered t params w data →
  (handler host t params w).1 = Return r →
  isError r = false →
  size_and_duration t (Some data) r.
Proof.
  intros Hans Hr Herr. destruct t; cbn [handler] in Hr.
  - eapply take_screenshot_reports; eassumption.
  - eapply generate_pdf_reports; eassumption.
  - eapply create_og_image_reports; eassumption.
  - eapply run_sequence_reports; eassumption.
  - eapply record_video_reports; eassumption.
  - eapply inspect_page_reports; eassumption.
  - exact I.
  - exact I.
Qed.

End Properties.

(** * Evaluation on the reference platform *)

Module Examples.
Import Reference.

Definition n (z : Z) : Json := JNum (Fin (inject_Z z)).

(** An answer with the fields that the tools print. *)
Definition answer : list (string * Json) :=
  [("data", JStr "aGk="); ("size_bytes", n 2048); ("duration_ms", n 1500);
   ("format", JStr "mp4"); ("frames", n 45);
   ("steps_completed", n 3); ("total_steps", n 3);
   ("plan", JStr "free");
   ("usage", JObj [("video_cost", n 3); ("remaining", n 171);
                   ("current", n 50); ("limit", n 200)])].

Definition ok : Response :=
  {| res_status := 200; res_statusText := "OK"; res_body := Some (JObj answer) |}.

Definition forbidden : Response :=
  {| res_status := 403; res_statusText := "Forbidden";
     res_body := Some (JObj [("error", JStr "Invalid API key")]) |}.

Definition bad_gateway : Response :=
  {| res_status := 502; res_statusText := "Bad Gateway"; res_body := None |}.

(** A configured process in [/home/u/proj] whose backend always gives the
    same answer. *)
Definition process (res : Response) (fault : option Exn) : Host :=
  {| PAGEBOLT_API_KEY := Some "pf_live_0123";
     PAGEBOLT_BASE_URL := None;
     cwd := "/home/u/proj";
     backend := λ _ _, Responded res;
     disk_fault := λ _ _, fault |}.

Definition healthy : Host := process ok None.
Definition read_only : Host := process ok (Some (Error "EROFS: read-only file system")).

Definition no_key : Host :=
  {| PAGEBOLT_API_KEY := None;
     PAGEBOLT_BASE_URL := None;
     cwd := "/home/u/proj";
     backend := λ _ _, Responded ok;
     disk_fault := λ _ _, None |}.

Definition start : World := {| http_log := []; fs_log := []; fs := ∅ |}.

Definition page : Params := [("url", JStr "https://example.com")].
Definition clip : Params :=
  [("steps", JArr [JObj [("action", JStr "navigate");
                         ("url", JStr "https://example.com")]])].

(** The result of a call that returned. *)
Definition result (run : Outcome ToolResult * World) : ToolResult :=
  match run.1 with
  | Return r => r
  | Throw e => failure (message e)
  end.

(** *** The handlers and [safePath] on concrete calls *)

Example screenshot_text :
  (take_screenshot healthy page start).1 =
    Return (success
      [ImageItem (Some (JStr "aGk=")) (FVal (str "image/png"));
       TextItem ("Screenshot captured successfully. Format: png, " +:+
                 "Size: 2048 bytes, Duration: 1500ms")]).
Proof. reflexivity. Qed.

Example pdf_saved_in_cwd :
  fs_log (generate_pdf healthy page start).2 = [("/home/u/proj/output.pdf", "hi")] ∧
  fs (generate_pdf healthy page start).2 !! "/home/u/proj/output.pdf" = Some "hi".
Proof. split; reflexivity. Qed.

Example safePath_default_name :
  safePath healthy undefined "./output.pdf" = Return "/home/u/proj/output.pdf".
Proof. reflexivity. Qed.

Example safePath_subdirectory :
  safePath healthy (str "out/report.pdf") "./output.pdf" =
    Return "/home/u/proj/out/report.pdf".
Proof. reflexivity. Qed.

Example safePath_parent :
  safePath healthy (str "../report.pdf") "./output.pdf" =
    Throw (Error (outside_message healthy "../report.pdf")).
Proof. reflexivity. Qed.

(** A file of the working directory whose name starts with two dots is
    refused as well: the test is on the first two characters of the
    relative path. *)
Example safePath_two_dots_in_name :
  safePath healthy (str "..report.pdf") "./output.pdf" =
    Throw (Error (outside_message healthy "..report.pdf")).
Proof. reflexivity. Qed.

Example mime_of_jpg : imageMimeType (str "jpg") = Return (FVal (str "image/jpeg")).
Proof. reflexivity. Qed.

Example mime_of_unknown : imageMimeType (str "gif") = Return (FVal (str "image/png")).
Proof. reflexivity. Qed.

Example network_failure_is_caught :
  handler {| PAGEBOLT_API_KEY := Some "pf_live_0123";
             PAGEBOLT_BASE_URL := Some "http://localhost:3000/";
             cwd := "/home/u/proj";
             backend := λ _ _, Rejected (TypeError "fetch failed");
             disk_fault := λ _ _, None |} InspectPage page start =
    (Return (failure "Inspect error: fetch failed"),
     {| http_log :=
          [{| req_url := "http://localhost:3000/api/v1/inspect";
              req_method := "POST";
              req_headers := [("x-api-key", "pf_live_0123");
                              ("user-agent", "pagebolt-mcp/1.6.2");
                              ("Content-Type", "application/json")];
              req_body := Some (JSON_stringify (JObj page)) |}];
        fs_log := [];
        fs := ∅ |}).
Proof. reflexivity. Qed.

(** *** The theorems at concrete calls *)

(** C1 at a take_screenshot call without source and at a record_video
    call with an empty steps array. *)
Lemma missing_source_rejected_witness :
  handler healthy TakeScreenshot [("width", n 800)] start =
    (Return {| content :=
                 [TextItem ("Error: One of " +:+ Str.dq +:+ "url" +:+ Str.dq +:+ ", " +:+
                            Str.dq +:+ "html" +:+ Str.dq +:+ ", or " +:+
                            Str.dq +:+ "markdown" +:+ Str.dq +:+ " is required.")];
               isError := true |},
     start) ∧
  handler healthy RecordVideo [("steps", JArr [])] start =
    (Return {| content :=
                 [TextItem ("Error: " +:+ Str.dq +:+ "steps" +:+ Str.dq +:+
                            " must be a non-empty array.")];
               isError := true |},
     start).
Proof.
  split.
  - apply (missing_source_rejected healthy TakeScreenshot). repeat split; reflexivity.
  - apply (missing_source_rejected healthy RecordVideo). right. reflexivity.
Defined.

(** C2, as amended, at a 403 answer with an error field, reported by the
    [catch] of inspect_page, and at a 502 answer whose body is not JSON,
    thrown by take_screenshot. *)
Lemma backend_failure_reported_witness :
  handler (process forbidden None) InspectPage page start =
    (Return {| content :=
                 [TextItem "Inspect error: PageBolt API error: Invalid API key"];
               isError := true |},
     {| http_log := [tool_request (process forbidden None) InspectPage page];
        fs_log := []; fs := ∅ |}) ∧
  handler (process bad_gateway None) TakeScreenshot page start =
    (Throw (Error "PageBolt API error: HTTP 502 Bad Gateway"),
     {| http_log := [tool_request (process bad_gateway None) TakeScreenshot page];
        fs_log := []; fs := ∅ |}).
Proof.
  split.
  - destruct (backend_failure_reported (process forbidden None) InspectPage page start
                forbidden eq_refl eq_refl eq_refl eq_refl)
      as (e & _ & Hhandler & _ & Htext & _).
    rewrite (Htext (JObj [("error", JStr "Invalid API key")])
               (Some (JStr "Invalid API key")) "Invalid API key"
               eq_refl eq_refl eq_refl eq_refl) in Hhandler.
    exact Hhandler.
  - destruct (backend_failure_reported (process bad_gateway None) TakeScreenshot page start
                bad_gateway eq_refl eq_refl eq_refl eq_refl)
      as (e & _ & Hhandler & _ & _ & Hstatus).
    rewrite (Hstatus eq_refl) in Hhandler.
    exact Hhandler.
Defined.

(** C3 at [saveTo: "/etc/cron.d/malicious"], the example of the source's
    own comment. *)
Lemma path_outside_cwd_rejected_witness :
  (∀ defaultName,
     safePath healthy (Some (JStr "/etc/cron.d/malicious")) defaultName =
       Throw (Error (outside_message healthy "/etc/cron.d/malicious"))) ∧
  fs_log (handler healthy GeneratePdf
            (page ++ [("saveTo", JStr "/etc/cron.d/malicious")]) start).2 = [] ∧
  fs (handler healthy GeneratePdf
        (page ++ [("saveTo", JStr "/etc/cron.d/malicious")]) start).2 = ∅.
Proof.
  apply (path_outside_cwd_rejected healthy GeneratePdf
           (page ++ [("saveTo", JStr "/etc/cron.d/malicious")]) start
           "/etc/cron.d/malicious");
    [reflexivity | discriminate | reflexivity].
Defined.

(** C4, as amended, at a take_screenshot call and at a record_video call. *)
Lemma size_and_duration_reported_witness :
  size_and_duration TakeScreenshot (Some (JObj answer))
    (result (handler healthy TakeScreenshot page start)) ∧
  size_and_duration RecordVideo (Some (JObj answer))
    (result (handler healthy RecordVideo clip start)).
Proof.
  split.
  - apply (size_and_duration_reported healthy TakeScreenshot page start);
      [|reflexivity|reflexivity].
    split; [reflexivity|]. split; [reflexivity|]. exists ok. repeat split.
  - apply (size_and_duration_reported healthy RecordVideo clip start);
      [|reflexivity|reflexivity].
    split; [reflexivity|]. split; [reflexivity|]. exists ok. repeat split.
Defined.

(** C7 at the request of a take_screenshot call. *)
Lemma requests_carry_api_key_witness :
  ∃ key, PAGEBOLT_API_KEY healthy = Some key ∧ key ≠ "" ∧
         ("x-api-key", key) ∈ req_headers (tool_request healthy TakeScreenshot page) ∧
         (req_body (tool_request healthy TakeScreenshot page) = None ∨
          ("Content-Type", "application/json")
            ∈ req_headers (tool_request healthy TakeScreenshot page)).
Proof.
  apply (requests_carry_api_key healthy TakeScreenshot page start
           [tool_request healthy TakeScreenshot page]).
  - reflexivity.
  - apply list_elem_of_here.
Defined.

(** C8 at a handler without [catch] and at a handler with one. *)
Lemma missing_key_no_request_witness :
  handler no_key TakeScreenshot page start =
    (Throw (Error ("PAGEBOLT_API_KEY environment variable is required. " +:+
                   "Get your free API key at https://pagebolt.dev")),
     start) ∧
  handler no_key InspectPage page start =
    (Return {| content :=
                 [TextItem ("Inspect error: " +:+
                            "PAGEBOLT_API_KEY environment variable is required. " +:+
                            "Get your free API key at https://pagebolt.dev")];
               isError := true |},
     start).
Proof.
  split.
  - apply (missing_key_no_request no_key TakeScreenshot page start). left. reflexivity.
  - apply (missing_key_no_request no_key InspectPage page start). left. reflexivity.
Defined.

(** C9 at a generate_pdf call on a read-only disk and at a record_video
    call whose [saveTo] is refused by [safePath]. *)
Lemma save_failure_is_not_an_error_witness :
  (∃ uri mime text,
     (handler read_only GeneratePdf page start).1 =
       Return {| content := [ResourceItem uri mime (Some (JStr "aGk=")); TextItem text];
                 isError := false |} ∧
     Str.occurs "(not saved to disk" text) ∧
  (∃ uri mime text,
     (handler healthy RecordVideo (clip ++ [("saveTo", JStr "/tmp/clip.mp4")]) start).1 =
       Return {| content := [ResourceItem uri mime (Some (JStr "aGk=")); TextItem text];
                 isError := false |} ∧
     Str.occurs "(not saved to disk" text).
Proof.
  split.
  - apply (save_failure_is_not_an_error read_only GeneratePdf page start answer).
    + reflexivity.
    + split; [reflexivity|]. split; [reflexivity|]. exists ok. repeat split.
    + split; reflexivity.
    + vm_compute. eexists. reflexivity.
  - apply (save_failure_is_not_an_error healthy RecordVideo
             (clip ++ [("saveTo", JStr "/tmp/clip.mp4")]) start answer).
    + reflexivity.
    + split; [reflexivity|]. split; [reflexivity|]. exists ok. repeat split.
    + split; [reflexivity|]. split.
      * repeat constructor.
      * eexists. repeat split; reflexivity.
    + vm_compute. exact I.
Defined.


(** The text of record_video for an answer of 2048 bytes and 1500 ms. *)
Definition video_result : ToolResult := result (handler healthy RecordVideo clip start).

Definition video_text : string :=
  match content video_result with
  | [_; TextItem text] => text
  | _ => ""
  end.

(** C4 as stated fails for record_video: the answer says 2048 bytes and
    1500 ms, the text says [2.0 KB] and [1.5s] and shows neither number. *)
Lemma record_video_rescales_size_and_duration :
  assoc "size_bytes" answer = Some (n 2048) ∧
  assoc "duration_ms" answer = Some (n 1500) ∧
  (handler healthy RecordVideo clip start).1 = Return video_result ∧
  isError video_result = false ∧
  Str.includes video_text "Size:     2.0 KB" = true ∧
  Str.includes video_text "Duration: 1.5s" = true ∧
  ¬ reports "2048" video_result ∧
  ¬ reports "1500" video_result.
Proof.
  repeat split; try reflexivity.
  - intros (text & Hin & Hocc).
    apply StrFacts.includes_complete in Hocc.
    apply elem_of_cons in Hin as [Hin|Hin]; [discriminate|].
    apply list_elem_of_singleton in Hin. injection Hin as ->.
    vm_compute in Hocc. discriminate.
  - intros (text & Hin & Hocc).
    apply StrFacts.includes_complete in Hocc.
    apply elem_of_cons in Hin as [Hin|Hin]; [discriminate|].
    apply list_elem_of_singleton in Hin. injection Hin as ->.
    vm_compute in Hocc. discriminate.
Qed.

(** An answer whose [error] field is an object, as structured error
    reports are. *)
Definition quota : Response :=
  {| res_status := 429; res_statusText := "Too Many Requests";
     res_body :=
       Some (JObj [("error", JObj [("code", n 42);
                                   ("message", JStr "quota exceeded")])]) |}.

Definition quota_message : string := "PageBolt API error: [object Object]".

(** C2 as stated fails for an [error] field that is present but not a
    string: the message names the field as [[object Object]] and shows
    nothing of what it holds. *)
Lemma structured_error_is_not_shown :
  res_ok quota = false ∧
  res_body quota =
    Some (JObj [("error", JObj [("code", n 42); ("message", JStr "quota exceeded")])]) ∧
  (callApi (process quota None) "/api/v1/inspect" (POST page) start).1 =
    Throw (Error quota_message) ∧
  (handler (process quota None) InspectPage page start).1 =
    Return {| content := [TextItem ("Inspect error: " +:+ quota_message)];
              isError := true |} ∧
  ¬ Str.occurs "quota exceeded" quota_message ∧
  ¬ Str.occurs "42" quota_message.
Proof.
  repeat split; try reflexivity.
  - intros Hocc. apply StrFacts.includes_complete in Hocc.
    vm_compute in Hocc. discriminate.
  - intros Hocc. apply StrFacts.includes_complete in Hocc.
    vm_compute in Hocc. discriminate.
Qed.

End Examples.

(** * More of the server's behaviour *)

Section Calls.
Context `{Platform}.
Variable host : Host.

Ltac step :=
  lazymatch goal with
  | |- wp (mbind _ _) _ _ => apply wp_bind
  | |- wp (mret _) _ _ => apply wp_ret
  | |- wp (lift _) _ _ => apply wp_lift
  | |- wp (try_catch _ _) _ _ => apply wp_try_catch
  | |- wp (writeFileSync _ _ _) _ _ => apply wp_writeFileSync; intros
  | |- wp (if ?b then _ else _) _ _ => destruct b eqn:?
  | |- match ?o with Return _ => _ | Throw _ => _ end => destruct o eqn:?
  end; cbn beta.

(** ** A call that passes validation reaches the backend *)

(** Some source is given: a source field that is a non-empty string, or
    steps that are a non-empty array. *)
Definition has_source (t : Tool) (params : Params) : Prop :=
  match t with
  | TakeScreenshot =>
      ∃ k c s, k ∈ ["url"; "html"; "markdown"] ∧ assoc k params = Some (JStr (String c s))
  | GeneratePdf | InspectPage =>
      ∃ k c s, k ∈ ["url"; "html"] ∧ assoc k params = Some (JStr (String c s))
  | RunSequence | RecordVideo =>
      ∃ step steps, assoc "steps" params = Some (JArr (step :: steps))
  | CreateOgImage | ListDevices | CheckUsage => True
  end.

Lemma has_source_passes t params : has_source t params → lacks_source t params = false.
Proof.
  destruct t; simpl; try reflexivity.
  - intros (k & c & s & Hk & E).
    repeat (apply elem_of_cons in Hk as [-> | Hk]); [| | |inversion Hk];
      rewrite E; simpl; rewrite ?andb_false_r; reflexivity.
  - intros (k & c & s & Hk & E).
    repeat (apply elem_of_cons in Hk as [-> | Hk]); [| |inversion Hk];
      rewrite E; simpl; rewrite ?andb_false_r; reflexivity.
  - intros (x & steps & E). unfold no_steps. rewrite E. simpl.
    rewrite num_eqb_of_Z_0. reflexivity.
  - intros (x & steps & E). unfold no_steps. rewrite E. simpl.
    rewrite num_eqb_of_Z_0. reflexivity.
  - intros (k & c & s & Hk & E).
    repeat (apply elem_of_cons in Hk as [-> | Hk]); [| |inversion Hk];
      rewrite E; simpl; rewrite ?andb_false_r; reflexivity.
Qed.

Lemma valid_call_log t params w :
  requireApiKey host = Return tt →
  lacks_source t params = false →
  http_log (handler host t params w).2 = http_log w ++ [tool_request host t params].
Proof.
  intros Hkey Hvalid.
  change (wp (handler host t params) w
            (λ _ w', http_log w' = http_log w ++ [tool_request host t params])).
  assert (∀ Q : Outcome Response → World → Prop,
            (∀ o, Q o (sent (tool_request host t params) w)) →
            wp (callApi host (endpoint t) (call_options t params)) w Q) as Hcall.
  { intros Q HQ. apply wp_callApi; [|intros _; exact HQ].
    intros e He. rewrite Hkey in He. discriminate. }
  destruct (no_steps_total params) as [invalid Hsteps].
  destruct t; cbn [handler]; simpl in Hvalid, Hcall;
    [ unfold take_screenshot | unfold generate_pdf | unfold create_og_image
    | unfold run_sequence | unfold record_video | unfold inspect_page
    | unfold list_devices | unfold check_usage ];
    rewrite ?Hvalid; rewrite ?Hsteps in *; subst;
    repeat first [ apply Hcall; intros | step ]; reflexivity.
Qed.

(** X1: with an API key configured, a call that names a source (a
    non-empty url, html or markdown string, or a non-empty steps array;
    nothing is needed for create_og_image, list_devices and check_usage)
    issues exactly one request, whatever the backend then answers. *)
Theorem sourced_call_issues_one_request t params w key :
  PAGEBOLT_API_KEY host = Some key → key ≠ "" →
  has_source t params →
  ∃ req, http_log (handler host t params w).2 = http_log w ++ [req] ∧
         req_url req = BASE_URL host +:+ endpoint t ∧
         ("x-api-key", key) ∈ req_headers req.
Proof.
  intros Hkey Hne Hsource.
  assert (requireApiKey host = Return tt) as Hreq.
  { unfold requireApiKey, API_KEY. rewrite Hkey. destruct key; [contradiction|reflexivity]. }
  exists (tool_request host t params). split; [|split].
  - apply valid_call_log; [exact Hreq | apply has_source_passes, Hsource].
  - reflexivity.
  - unfold tool_request, api_request, API_KEY. simpl. rewrite Hkey. left.
Qed.

(** ** Failures after the request *)

Lemma wp_try_catch_total {A} (m : M A) (recover : Exn → A) w Q :
  (∀ a w', Q (Return a) w') →
  wp (try_catch m (λ e, mret (recover e))) w Q.
Proof.
  intros HQ. unfold wp, try_catch. destruct (m w) as [[a|e] w']; apply HQ.
Qed.

(** X2: run_sequence, record_video and inspect_page never throw: whatever
    the parameters, the backend and the disk do, the call returns a result
    (an error result when something failed). *)
Theorem handlers_with_catch_return t params w :
  is_Some (catch_prefix t) →
  ∃ r, (handler host t params w).1 = Return r.
Proof.
  intros [prefix Hprefix].
  change (wp (handler host t params) w (λ o _, ∃ r, o = Return r)).
  destruct (no_steps_total params) as [invalid Hsteps].
  destruct t; try discriminate; cbn [handler].
  - unfold run_sequence. apply wp_bind, wp_lift. rewrite Hsteps.
    destruct invalid; [apply wp_ret; eauto|].
    apply wp_try_catch_total. eauto.
  - unfold record_video. apply wp_bind, wp_lift. rewrite Hsteps.
    destruct invalid; [apply wp_ret; eauto|].
    apply wp_try_catch_total. eauto.
  - unfold inspect_page. destruct (_ && _); [apply wp_ret; eauto|].
    apply wp_try_catch_total. eauto.
Qed.

(** X3: when [fetch] itself fails (no connection, DNS, ...), the request
    has been attempted once, nothing is written, and the failure reaches
    the caller with the message of [fetch]: thrown by the handlers without
    [catch], as the text of an error result by the others. *)
Theorem network_failure_surfaced t params w e :
  lacks_source t params = false →
  requireApiKey host = Return tt →
  backend host (http_log w) (tool_request host t params) = Rejected e →
  handler host t params w =
    (match catch_prefix t with
     | Some prefix =>
         Return {| content := [TextItem (prefix +:+ message e)]; isError := true |}
     | None => Throw e
     end,
     sent (tool_request host t params) w).
Proof.
  intros Hvalid Hkey Hrejected.
  refine (handler_callApi_throws host t params w e _ Hvalid _).
  rewrite callApi_run, Hkey. cbn zeta. unfold tool_request in Hrejected.
  rewrite Hrejected. reflexivity.
Qed.

(** X4: a 2xx answer whose body is not JSON makes [res.json()] throw; the
    handlers do not retry or fall back: the exception reaches the caller as
    for a network failure, and nothing is written. *)
Theorem unreadable_answer_surfaced t params w res e :
  lacks_source t params = false →
  requireApiKey host = Return tt →
  backend host (http_log w) (tool_request host t params) = Responded res →
  res_ok res = true →
  res_json res = Throw e →
  handler host t params w =
    (match catch_prefix t with
     | Some prefix =>
         Return {| content := [TextItem (prefix +:+ message e)]; isError := true |}
     | None => Throw e
     end,
     sent (tool_request host t params) w).
Proof.
  intros Hvalid Hkey Hres Hok Hjson.
  pose proof (callApi_ok host (endpoint t) (call_options t params) w res Hkey Hres Hok)
    as Hcall.
  destruct (no_steps_total params) as [invalid Hsteps].
  destruct t; simpl in Hvalid, Hcall |- *;
    [ unfold take_screenshot | unfold generate_pdf | unfold create_og_image
    | unfold run_sequence | unfold record_video | unfold inspect_page
    | unfold list_devices | unfold check_usage ];
    rewrite ?Hsteps in *; subst;
    unfold try_catch, mbind, M_bind, lift; rewrite ?Hvalid, Hcall, Hjson; reflexivity.
Qed.

(** X5: the message of [callApi] for the answers that have no usable
    [error] field.  A JSON body of [null] is reported with the HTTP status
    line, like a body that is not JSON; any other JSON body whose [error]
    is missing or falsy is reported in full, as [JSON.stringify] prints
    it. *)
Theorem backend_failure_without_error_field endpoint options w res :
  requireApiKey host = Return tt →
  backend host (http_log w) (api_request host endpoint options) = Responded res →
  res_ok res = false →
  (res_body res = Some JNull →
   (callApi host endpoint options w).1 =
     Throw (Error ("PageBolt API error: HTTP " +:+ pretty (res_status res) +:+ " " +:+
                   res_statusText res))) ∧
  (∀ body error,
     res_body res = Some body →
     get (Some body) "error" = Return error →
     truthy error = false →
     (callApi host endpoint options w).1 =
       Throw (Error ("PageBolt API error: " +:+ JSON_stringify body))).
Proof.
  intros Hkey Hres Hok.
  rewrite (callApi_fails host _ _ _ _ Hkey Hres Hok). simpl.
  unfold api_failure, error_text, res_json. split.
  - intros ->. reflexivity.
  - intros body error -> Herror Hfalsy. simpl. rewrite Herror. simpl.
    unfold or_else. rewrite Hfalsy. reflexivity.
Qed.

(** ** The shape of results *)

Ltac unbind H :=
  repeat
    (let a := fresh "a" in
     let E := fresh "E" in
     apply bind_Return in H as (a & E & H); cbv beta zeta in H).

Lemma sequence_result_success data r :
  sequence_result data = Return r → isError r = false.
Proof.
  unfold sequence_result. intros Hr. unbind Hr. injection Hr as <-. reflexivity.
Qed.

Lemma inspect_result_success params data r :
  inspect_result params data = Return r → isError r = false.
Proof.
  unfold inspect_result. intros Hr. unbind Hr. injection Hr as <-. reflexivity.
Qed.

Lemma usage_result_success data r :
  usage_result data = Return r → isError r = false.
Proof.
  unfold usage_result. intros Hr. unbind Hr. injection Hr as <-. reflexivity.
Qed.

(** X6: an error result of a tool is always one text item: the message of
    the validation, or the handler's prefix followed by the message of the
    exception.  Results with an image or a resource are never marked as
    errors. *)
Theorem error_result_is_one_message t params w r :
  (handler host t params w).1 = Return r →
  isError r = true →
  ∃ text, content r = [TextItem text].
Proof.
  revert r.
  apply (wp_result _ _ (λ r, isError r = true → ∃ text, content r = [TextItem text])).
  assert (∀ (Q : Outcome Response → World → Prop) endpoint options,
            (∀ o w', Q o w') → wp (callApi host endpoint options) w Q) as Hcall.
  { intros Q endpoint options HQ. unfold wp. apply HQ. }
  destruct t; cbn [handler];
    [ unfold take_screenshot | unfold generate_pdf | unfold create_og_image
    | unfold run_sequence | unfold record_video | unfold inspect_page
    | unfold list_devices | unfold check_usage ];
    repeat first [ apply Hcall; intros | apply wp_try_catch_returns; intros | step ];
    intros r Hr Herr;
    first
      [ discriminate Hr
      | injection Hr as <-; simpl; eauto; fail
      | exfalso;
        try (injection Hr as <-);
        match goal with
        | E : sequence_result _ = Return _ |- _ =>
            rewrite (sequence_result_success _ _ E) in Herr
        | E : inspect_result _ _ = Return _ |- _ =>
            rewrite (inspect_result_success _ _ _ E) in Herr
        | E : usage_result _ = Return _ |- _ =>
            rewrite (usage_result_success _ _ E) in Herr
        | E : mbind _ _ = Return _ |- _ =>
            unbind E; repeat case_match; injection E as <-
        end;
        discriminate Herr ].
Qed.

(** ** What is sent *)

Lemma assoc_setProp_eq k v props : assoc k (setProp k v props) = Some v.
Proof.
  induction props as [|[k' v'] props IH]; simpl.
  - rewrite String.eqb_refl. reflexivity.
  - destruct (String.eqb_spec k k') as [->|Hne]; simpl.
    + rewrite String.eqb_refl. reflexivity.
    + destruct (String.eqb_spec k k'); [contradiction | exact IH].
Qed.

Lemma assoc_setProp_ne k k' v props :
  k ≠ k' → assoc k' (setProp k v props) = assoc k' props.
Proof.
  intros Hne. induction props as [|[k0 v0] props IH]; simpl.
  - destruct (String.eqb_spec k' k); [congruence | reflexivity].
  - destruct (String.eqb_spec k k0) as [->|Hk]; simpl.
    + destruct (String.eqb_spec k' k0); [congruence | reflexivity].
    + destruct (String.eqb_spec k' k0); [reflexivity | exact IH].
Qed.

Lemma assoc_omitProp_eq k props : assoc k (omitProp k props) = None.
Proof.
  unfold omitProp. induction props as [|[k' v'] props IH]; [reflexivity|].
  rewrite filter_cons. simpl. destruct (String.eqb_spec k k') as [->|Hne]; simpl.
  - exact IH.
  - destruct (String.eqb_spec k k'); [contradiction | exact IH].
Qed.

Lemma assoc_omitProp_ne k k' props :
  k ≠ k' → assoc k' (omitProp k props) = assoc k' props.
Proof.
  intros Hne. unfold omitProp. induction props as [|[k0 v0] props IH]; [reflexivity|].
  rewrite filter_cons. simpl. destruct (String.eqb_spec k k0) as [->|Hk]; simpl.
  - destruct (String.eqb_spec k' k0); [congruence | exact IH].
  - destruct (String.eqb_spec k' k0); [reflexivity | exact IH].
Qed.

(** How the body of the request relates to the parameters of the call. *)
Definition forwarded (t : Tool) (params body : list (string * Json)) : Prop :=
  match t with
  | GeneratePdf | RecordVideo =>
      assoc "saveTo" body = None ∧
      assoc "response_type" body = Some (JStr "json") ∧
      ∀ k, k ≠ "saveTo" → k ≠ "response_type" → assoc k body = assoc k params
  | TakeScreenshot | CreateOgImage =>
      assoc "response_type" body = Some (JStr "json") ∧
      ∀ k, k ≠ "response_type" → assoc k body = assoc k params
  | RunSequence | InspectPage => body = params
  | ListDevices | CheckUsage => False
  end.

(** X7: what a tool call puts in its request.  list_devices and
    check_usage send a GET without body.  The others POST the parameters as
    JSON: run_sequence and inspect_page as they are; take_screenshot and
    create_og_image with [response_type] forced to [json]; generate_pdf and
    record_video likewise and without [saveTo], so the local path never
    leaves the machine. *)
Theorem request_forwards_parameters t params w req :
  http_log (handler host t params w).2 = http_log w ++ [req] →
  match t with
  | ListDevices | CheckUsage => req_method req = "GET" ∧ req_body req = None
  | _ =>
      req_method req = "POST" ∧
      ∃ body, req_body req = Some (JSON_stringify (JObj body)) ∧
              forwarded t params body
  end.
Proof.
  intros Hlog.
  destruct (handler_requests host t params w) as [E|[_ E]]; rewrite E in Hlog.
  { apply log_unchanged in Hlog. discriminate. }
  apply log_suffix in Hlog. injection Hlog as <-.
  destruct t; simpl; (split; [reflexivity|]); try reflexivity;
    eexists; (split; [reflexivity|]); simpl; try reflexivity.
  - split; [apply assoc_setProp_eq|]. intros k Hk. apply assoc_setProp_ne. congruence.
  - split; [|split].
    + rewrite assoc_setProp_ne by discriminate. apply assoc_omitProp_eq.
    + apply assoc_setProp_eq.
    + intros k Hk1 Hk2. rewrite assoc_setProp_ne by congruence.
      apply assoc_omitProp_ne. congruence.
  - split; [apply assoc_setProp_eq|]. intros k Hk. apply assoc_setProp_ne. congruence.
  - split; [|split].
    + rewrite assoc_setProp_ne by discriminate. apply assoc_omitProp_eq.
    + apply assoc_setProp_eq.
    + intros k Hk1 Hk2. rewrite assoc_setProp_ne by congruence.
      apply assoc_omitProp_ne. congruence.
Qed.

(** ** The base URL *)

Lemma dropTrailingSlash_slash s : Str.dropTrailingSlash (s +:+ "/") = s.
Proof.
  induction s as [|c s IH]; [reflexivity|].
  change (String c s +:+ "/") with (String c (s +:+ "/")).
  destruct s as [|c' s]; [reflexivity|].
  change (Str.dropTrailingSlash (String c (String c' s +:+ "/")))
    with (String c (Str.dropTrailingSlash (String c' s +:+ "/"))).
  rewrite IH. reflexivity.
Qed.

Lemma dropTrailingSlash_other s :
  (∀ rest, s ≠ rest +:+ "/") → Str.dropTrailingSlash s = s.
Proof.
  induction s as [|c s IH]; intros Hs; [reflexivity|].
  destruct s as [|c' s].
  - simpl. destruct (Ascii.eqb_spec c "/") as [->|_]; [|reflexivity].
    destruct (Hs ""). reflexivity.
  - change (Str.dropTrailingSlash (String c (String c' s)))
      with (String c (Str.dropTrailingSlash (String c' s))).
    rewrite IH; [reflexivity|].
    intros rest Hrest. apply (Hs (String c rest)).
    change (String c rest +:+ "/") with (String c (rest +:+ "/")). congruence.
Qed.

(** X8: the base URL of the requests.  Without [PAGEBOLT_BASE_URL], or
    with an empty one, it is [https://pagebolt.dev]; a configured URL is
    used as it is, except that one slash at its end is dropped, so that
    [http://host] and [http://host/] give the same request URLs. *)
Theorem base_url_normalised url :
  (PAGEBOLT_BASE_URL host = None ∨ PAGEBOLT_BASE_URL host = Some "" →
   BASE_URL host = "https://pagebolt.dev") ∧
  (PAGEBOLT_BASE_URL host = Some (url +:+ "/") → BASE_URL host = url) ∧
  (PAGEBOLT_BASE_URL host = Some url → url ≠ "" → (∀ rest, url ≠ rest +:+ "/") →
   BASE_URL host = url).
Proof.
  unfold BASE_URL. repeat split.
  - intros [-> | ->]; reflexivity.
  - intros ->. destruct (String.eqb_spec (url +:+ "/") "") as [E|_].
    + destruct url; discriminate.
    + apply dropTrailingSlash_slash.
  - intros -> Hne Hslash. destruct (String.eqb_spec url ""); [contradiction|].
    apply dropTrailingSlash_other, Hslash.
Qed.

(** ** A payload that is saved *)

(** X9: when generate_pdf or record_video can save (the path passes
    [safePath], the payload decodes, the disk accepts the write), the call
    writes the decoded payload once at the resolved path, the file then
    holds it, and the text of the result names that path; the payload is
    returned as a resource all the same. *)
Theorem payload_saved t params w props path buffer :
  writes_file t = true →
  answered host t params w (JObj props) →
  printable t params props →
  safePath host (assoc "saveTo" params) (default_name t params) = Return path →
  Buffer_from_base64 (assoc "data" props) = Return buffer →
  disk_fault host (fs w) path = None →
  path ≠ "" →
  fs (handler host t params w).2 !! path = Some buffer ∧
  fs_log (handler host t params w).2 = fs_log w ++ [(path, buffer)] ∧
  ∃ uri mime text,
    (handler host t params w).1 =
      Return {| content := [ResourceItem uri mime (assoc "data" props); TextItem text];
                isError := false |} ∧
    (Str.occurs ("File: " +:+ path) text ∨ Str.occurs ("File:     " +:+ path) text).
Proof.
  intros Hwrites Hans Hprint Hsafe Hbuffer Hdisk Hpath.
  destruct (answered_callApi host _ _ _ _ Hans) as (res & Hcall & Hjson).
  destruct Hans as (_ & Hvalid & _).
  destruct (no_steps_total params) as [invalid Hsteps].
  set (w1 := sent (tool_request host t params) w) in *.
  assert (saved (Some path) = true) as Hsaved by (destruct path; [contradiction|reflexivity]).
  cut (∃ uri mime text,
         handler host t params w =
           (Return {| content := [ResourceItem uri mime (assoc "data" props); TextItem text];
                      isError := false |}, written path buffer true w1) ∧
         (Str.occurs ("File: " +:+ path) text ∨ Str.occurs ("File:     " +:+ path) text)).
  { intros (uri & mime & text & -> & Hocc). simpl.
    split; [apply lookup_insert_eq|]. split; [reflexivity|]. eauto 10. }
  destruct t; try discriminate; simpl in Hvalid, Hcall, Hsafe.
  - destruct Hprint as [Hsize Hduration].
    do 3 eexists. split.
    + cbn [handler]. unfold generate_pdf. rewrite Hvalid.
      unfold mbind at 1, M_bind. rewrite Hcall.
      unfold mbind at 1, M_bind, lift at 1. rewrite Hjson.
      unfold mbind at 1, M_bind.
      match goal with
      | |- context [try_catch ?m ?h w1] =>
          replace (try_catch m h w1) with (Return (Some path), written path buffer true w1)
      end.
      2:{ unfold try_catch, mbind, M_bind, lift, writeFileSync.
          rewrite Hsafe. simpl. rewrite Hbuffer. simpl. rewrite Hdisk. reflexivity. }
      rewrite Hsaved. unfold lift. simpl.
      rewrite !show_flat by assumption. reflexivity.
    + left.
      exists ("PDF generated successfully." +:+ Str.nl +:+ "  "). eexists.
      rewrite ?StrFacts.append_assoc. reflexivity.
  - destruct Hprint as (Hformat & Hfields & usage & Husage & Hcost & Hremaining).
    repeat (apply Forall_cons in Hfields as [? Hfields]).
    rewrite Hsteps in Hvalid. subst invalid.
    pose proof (flat_video_ext _ Hformat) as Hext.
    do 3 eexists. split.
    + cbn [handler]. unfold record_video.
      unfold mbind at 1, M_bind, lift at 1. rewrite Hsteps.
      unfold try_catch at 1.
      unfold mbind at 1, M_bind. rewrite Hcall.
      unfold mbind at 1, M_bind, lift at 1. rewrite Hjson.
      cbv zeta. fold (video_ext params).
      unfold mbind at 1, M_bind, lift at 1. rewrite (video_mime_flat _ Hformat).
      unfold mbind at 1, M_bind.
      match goal with
      | |- context [try_catch ?m ?h w1] =>
          replace (try_catch m h w1) with (Return (Some path), written path buffer true w1)
      end.
      2:{ unfold try_catch, mbind, M_bind, lift, writeFileSync.
          rewrite (to_str_flat _ Hext). simpl.
          rewrite Hsafe. simpl. rewrite Hbuffer. simpl. rewrite Hdisk. reflexivity. }
      rewrite Hsaved. unfold lift. simpl.
      rewrite !scaled_flat, (to_str_flat _ Hext), Husage by assumption. simpl.
      rewrite !show_flat by assumption. reflexivity.
    + right.
      exists ("Video recorded successfully." +:+ Str.nl +:+ "  "). eexists.
      rewrite ?StrFacts.append_assoc. reflexivity.
Qed.

(** ** What run_sequence and list_devices list *)

(** The image items of a result, in order. *)
Definition images (items : list ContentItem) : list (JsVal * Field) :=
  flat_map (λ item, match item with
                    | ImageItem data mime => [(data, mime)]
                    | _ => []
                    end) items.

Definition is_resource (item : ContentItem) : bool :=
  match item with
  | ResourceItem _ _ _ => true
  | _ => false
  end.

(** [v.k], when reading it does not throw. *)
Definition field (v : JsVal) (k : string) : JsVal :=
  match get v k with
  | Return x => x
  | Throw _ => None
  end.

(** The image that run_sequence makes of an output: one for a
    screenshot, none for anything else. *)
Definition output_image (output : JsVal) : list (JsVal * Field) :=
  if is_str (field output "type") "screenshot"
  then [(field output "data", FVal (field output "content_type"))]
  else [].

Lemma images_app l l' : images (l ++ l') = images l ++ images l'.
Proof. apply flat_map_app. Qed.

Lemma push_output_images content output content' :
  push_output content output = Return content' →
  images content' = images content ++ output_image output ∧
  (forallb (λ item, negb (is_resource item)) content = true →
   forallb (λ item, negb (is_resource item)) content' = true).
Proof.
  unfold push_output, output_image, field. intros Hpush.
  apply bind_Return in Hpush as (type & -> & Hpush).
  destruct (is_str type "screenshot").
  - apply bind_Return in Hpush as (image & -> & Hpush).
    apply bind_Return in Hpush as (mime & -> & Hpush).
    unbind Hpush. injection Hpush as <-.
    rewrite images_app, forallb_app. simpl. split; [reflexivity|].
    intros ->. reflexivity.
  - destruct (is_str type "pdf").
    + unbind Hpush. injection Hpush as <-.
      rewrite images_app, forallb_app. simpl. rewrite app_nil_r. split; [reflexivity|].
      intros ->. reflexivity.
    + injection Hpush as <-. rewrite app_nil_r. auto.
Qed.

Lemma foldM_push_output_images items :
  ∀ acc content,
    foldM push_output items acc = Return content →
    images content = images acc ++ flat_map output_image items ∧
    (forallb (λ item, negb (is_resource item)) acc = true →
     forallb (λ item, negb (is_resource item)) content = true).
Proof.
  induction items as [|item items IH]; intros acc content Hfold; simpl in Hfold.
  - injection Hfold as <-. simpl. rewrite app_nil_r. auto.
  - apply bind_Return in Hfold as (acc' & Hpush & Hfold).
    destruct (IH _ _ Hfold) as [Himages Hres].
    destruct (push_output_images _ _ _ Hpush) as [Himages' Hres'].
    split; [|auto].
    rewrite Himages, Himages'. simpl. rewrite app_assoc. reflexivity.
Qed.

(** X10: in a result of run_sequence that is not an error, the image
    items are exactly the screenshot outputs of the answer, in order, each
    with its [data] and [content_type]; a pdf output is only described in
    a text, and no resource item is returned: its data is not delivered. *)
Theorem sequence_images_are_screenshots params w data r outputs items :
  answered host RunSequence params w data →
  (run_sequence host params w).1 = Return r →
  isError r = false →
  get (Some data) "outputs" = Return outputs →
  iterate outputs = Return items →
  images (content r) = flat_map output_image items ∧
  forallb (λ item, negb (is_resource item)) (content r) = true.
Proof.
  intros Hans Hr Herr Houtputs Hitems.
  destruct (answered_callApi host _ _ _ _ Hans) as (res & Hcall & Hjson).
  destruct Hans as (_ & Hvalid & _). simpl in Hvalid, Hcall.
  destruct (no_steps_total params) as [invalid Hsteps].
  rewrite Hsteps in Hvalid. subst invalid.
  revert r Hr Herr.
  apply (wp_result _ _ (λ r, isError r = false →
           images (content r) = flat_map output_image items ∧
           forallb (λ item, negb (is_resource item)) (content r) = true)).
  unfold run_sequence.
  apply wp_bind, wp_lift. rewrite Hsteps. cbv beta iota.
  apply wp_try_catch, wp_bind. eapply wp_eq; [exact Hcall|]. cbv beta iota.
  apply wp_bind, wp_lift. rewrite Hjson. cbv beta iota.
  apply wp_lift.
  destruct (sequence_result (Some data)) as [r'|e] eqn:Hres.
  - intros r [= <-] _. unfold sequence_result in Hres.
    rewrite Houtputs in Hres. simpl in Hres. rewrite Hitems in Hres. simpl in Hres.
    apply bind_Return in Hres as (content & Hcontent & Hres).
    unbind Hres. injection Hres as <-.
    destruct (foldM_push_output_images _ _ _ Hcontent) as [Himages Hres'].
    simpl. rewrite images_app, forallb_app, Himages, (Hres' eq_refl). simpl.
    rewrite app_nil_r. split; reflexivity.
  - apply wp_ret. intros r [= <-]. discriminate.
Qed.






(** ** An answer that is not an object *)

(** X13: a 2xx answer whose body is the JSON value [null] makes every tool
    fail with a TypeError, after its one request and without writing a
    file: take_screenshot, generate_pdf, create_og_image, list_devices and
    check_usage throw it, the three handlers with a [catch] return it as an
    error result. *)
Theorem null_answer_is_type_error t params w :
  answered host t params w JNull →
  ∃ text,
    handler host t params w =
    (match catch_prefix t with
     | Some prefix =>
         Return {| content := [TextItem (prefix +:+ text)]; isError := true |}
     | None => Throw (TypeError text)
     end,
     sent (tool_request host t params) w).
Proof.
  intros Hans.
  change (∃ text, handler host t params w =
                  (surfaced t (TypeError text), sent (tool_request host t params) w)).
  destruct (answered_callApi host _ _ _ _ Hans) as (res & Hcall & Hjson).
  destruct Hans as (_ & Hvalid & _).
  enough (wp (handler host t params) w
            (λ o w', (∃ text, o = surfaced t (TypeError text)) ∧
                     w' = sent (tool_request host t params) w)) as Hwp.
  { unfold wp in Hwp. destruct Hwp as ((text & Ho) & Hw). exists text.
    destruct (handler host t params w) as [o w']. simpl in Ho, Hw. congruence. }
  destruct t; simpl in Hvalid, Hcall |- *;
    try (destruct (no_steps_total params) as [invalid Hsteps];
         rewrite Hsteps in Hvalid; subst invalid);
    unfold take_screenshot, generate_pdf, create_og_image, run_sequence, record_video,
      inspect_page, list_devices, check_usage;
    rewrite ?Hvalid; cbv zeta;
    try (step; step; rewrite Hsteps; cbv beta iota);
    try apply wp_try_catch;
    (step; eapply wp_eq; [exact Hcall|]; cbv beta iota;
     step; step; rewrite Hjson; cbv beta iota);
    repeat first [step | progress simpl];
    repeat match goal with
           | E : _ = Return _ |- _ => simpl in E; discriminate E
           | E : _ = Throw ?e |- _ => is_var e; simpl in E; injection E as <-
           end;
    unfold surfaced; simpl; eauto.
Qed.

(** ** The image of take_screenshot and create_og_image *)




(** ** The first line of inspect_page *)

Lemma foldM_prefix {A B} (f : list B → A → Outcome (list B)) items :
  (∀ acc x acc', f acc x = Return acc' → acc `prefix_of` acc') →
  ∀ acc acc', foldM f items acc = Return acc' → acc `prefix_of` acc'.
Proof.
  intros Hf. induction items as [|x items IH]; intros acc acc' Hfold; simpl in Hfold.
  - injection Hfold as <-. reflexivity.
  - apply bind_Return in Hfold as (acc1 & Hx & Hfold).
    etrans; [exact (Hf _ _ _ Hx) | exact (IH _ _ Hfold)].
Qed.

Lemma push_if_prefix lines label v lines' :
  push_if lines label v = Return lines' → lines `prefix_of` lines'.
Proof.
  unfold push_if. destruct (truthy v).
  - intros Hpush. unbind Hpush. injection Hpush as <-. apply prefix_app_r. reflexivity.
  - intros [= <-]. reflexivity.
Qed.

Lemma listing_prefix lines xs title body lines' :
  (∀ acc x acc', body acc x = Return acc' → acc `prefix_of` acc') →
  listing lines xs title body = Return lines' → lines `prefix_of` lines'.
Proof.
  intros Hbody. unfold listing. destruct (truthy xs); [|intros [= <-]; reflexivity].
  intros Hlist.
  apply bind_Return in Hlist as (len & _ & Hlist).
  apply bind_Return in Hlist as ([] & _ & Hlist); [|injection Hlist as <-; reflexivity].
  apply bind_Return in Hlist as (n & _ & Hlist).
  apply bind_Return in Hlist as (items & _ & Hlist).
  apply bind_Return in Hlist as (lines1 & Hfold & Hlist). injection Hlist as <-.
  apply prefix_app_r. etrans; [|exact (foldM_prefix _ _ Hbody _ _ Hfold)].
  apply prefix_app_r. reflexivity.
Qed.

Lemma push_heading_prefix lines h lines' :
  push_heading lines h = Return lines' → lines `prefix_of` lines'.
Proof.
  unfold push_heading. intros Hpush. unbind Hpush. injection Hpush as <-.
  apply prefix_app_r. reflexivity.
Qed.

Lemma push_element_prefix lines el lines' :
  push_element lines el = Return lines' → lines `prefix_of` lines'.
Proof.
  unfold push_element. intros Hpush. unbind Hpush. injection Hpush as <-.
  apply prefix_app_r. reflexivity.
Qed.

Lemma push_field_prefix lines f lines' :
  push_field lines f = Return lines' → lines `prefix_of` lines'.
Proof.
  unfold push_field. intros Hpush. unbind Hpush. injection Hpush as <-.
  apply prefix_app_r. reflexivity.
Qed.

Lemma push_form_prefix lines f lines' :
  push_form lines f = Return lines' → lines `prefix_of` lines'.
Proof.
  unfold push_form. intros Hpush.
  do 9 (apply bind_Return in Hpush as (? & _ & Hpush)).
  etrans; [|exact (foldM_prefix _ _ push_field_prefix _ _ Hpush)].
  apply prefix_app_r. reflexivity.
Qed.

Lemma push_link_prefix lines l lines' :
  push_link lines l = Return lines' → lines `prefix_of` lines'.
Proof.
  unfold push_link. intros Hpush. unbind Hpush. injection Hpush as <-.
  apply prefix_app_r. reflexivity.
Qed.

Lemma push_image_prefix lines img lines' :
  push_image lines img = Return lines' → lines `prefix_of` lines'.
Proof.
  unfold push_image. intros Hpush. unbind Hpush. injection Hpush as <-.
  apply prefix_app_r. reflexivity.
Qed.

(** X15: the text of a result of inspect_page that is not an error opens
    with the line [Page: <title> (<url>)], where the title is the answer's,
    or [(untitled)] when it has none, and the url is the answer's, or else
    the call's [url] parameter, or else [html content]. *)
Theorem page_line_comes_first params w data r :
  answered host InspectPage params w data →
  (inspect_page host params w).1 = Return r →
  isError r = false →
  ∃ title url rest,
    to_str (or_else (field (Some data) "title") (str "(untitled)")) = Return title ∧
    to_str (or_else (or_else (field (Some data) "url") (assoc "url" params))
                    (str "html content")) = Return url ∧
    content r =
    [TextItem ("Page: " +:+ title +:+ " (" +:+ url +:+ ")" +:+ Str.nl +:+ rest)].
Proof.
  intros Hans.
  destruct (answered_callApi host _ _ _ _ Hans) as (res & Hcall & Hjson).
  destruct Hans as (_ & Hvalid & _). simpl in Hvalid, Hcall.
  revert r.
  apply (wp_result _ _ (λ r, isError r = false → ∃ title url rest,
    to_str (or_else (field (Some data) "title") (str "(untitled)")) = Return title ∧
    to_str (or_else (or_else (field (Some data) "url") (assoc "url" params))
                    (str "html content")) = Return url ∧
    content r =
    [TextItem ("Page: " +:+ title +:+ " (" +:+ url +:+ ")" +:+ Str.nl +:+ rest)])).
  unfold inspect_page. rewrite Hvalid.
  apply wp_try_catch, wp_bind. eapply wp_eq; [exact Hcall|]. cbv beta iota.
  apply wp_bind, wp_lift. rewrite Hjson. cbv beta iota.
  apply wp_lift.
  destruct (inspect_result params (Some data)) as [r'|e] eqn:Hres;
    [|apply wp_ret; intros r [= <-]; discriminate].
  intros r [= <-] _. unfold inspect_result in Hres.
  apply bind_Return in Hres as (t & Ht & Hres).
  apply bind_Return in Hres as (title & Htitle & Hres).
  apply bind_Return in Hres as (u & Hu & Hres).
  apply bind_Return in Hres as (url & Hurl & Hres).
  cbv zeta in Hres.
  apply bind_Return in Hres as (metadata & _ & Hres).
  apply bind_Return in Hres as (lines0 & Hmeta & Hres).
  apply bind_Return in Hres as (? & _ & Hres).
  apply bind_Return in Hres as (lines1 & H1 & Hres).
  apply bind_Return in Hres as (? & _ & Hres).
  apply bind_Return in Hres as (lines2 & H2 & Hres).
  apply bind_Return in Hres as (? & _ & Hres).
  apply bind_Return in Hres as (lines3 & H3 & Hres).
  apply bind_Return in Hres as (? & _ & Hres).
  apply bind_Return in Hres as (lines4 & H4 & Hres).
  apply bind_Return in Hres as (? & _ & Hres).
  apply bind_Return in Hres as (lines5 & H5 & Hres).
  apply bind_Return in Hres as (duration & _ & Hres).
  injection Hres as <-.
  assert (["Page: " +:+ title +:+ " (" +:+ url +:+ ")"] `prefix_of` lines0) as [m ->].
  { destruct (truthy metadata); [|injection Hmeta as <-; reflexivity].
    apply bind_Return in Hmeta as (? & _ & Hmeta).
    apply bind_Return in Hmeta as (l1 & Hl1 & Hmeta).
    apply bind_Return in Hmeta as (? & _ & Hmeta).
    apply bind_Return in Hmeta as (l2 & Hl2 & Hmeta).
    apply bind_Return in Hmeta as (? & _ & Hmeta).
    etrans; [exact (push_if_prefix _ _ _ _ Hl1)|].
    etrans; [exact (push_if_prefix _ _ _ _ Hl2)|].
    exact (push_if_prefix _ _ _ _ Hmeta). }
  assert (((["Page: " +:+ title +:+ " (" +:+ url +:+ ")"] ++ m) ++ [""])
            `prefix_of` lines5) as [more ->].
  { etrans; [exact (listing_prefix _ _ _ _ _ push_heading_prefix H1)|].
    etrans; [exact (listing_prefix _ _ _ _ _ push_element_prefix H2)|].
    etrans; [exact (listing_prefix _ _ _ _ _ push_form_prefix H3)|].
    etrans; [exact (listing_prefix _ _ _ _ _ push_link_prefix H4)|].
    exact (listing_prefix _ _ _ _ _ push_image_prefix H5). }
  exists title, url,
    (Str.join Str.nl ((m ++ [""]) ++ more ++ ["Duration: " +:+ duration +:+ "ms"])).
  unfold field. rewrite Ht, Hu. split; [exact Htitle|]. split; [exact Hurl|].
  simpl. rewrite <- !app_assoc. simpl.
  destruct (m ++ "" :: more ++ ["Duration: " +:+ duration +:+ "ms"]) as [|line tail] eqn:Htail.
  { destruct m; discriminate Htail. }
  rewrite ?StrFacts.append_assoc. reflexivity.
Qed.

(** ** The resource of record_video *)

(** The type that record_video looks up for a format: the entry of its
    table, else the member of that name that the table object inherits,
    else [video/mp4]. *)
Definition video_type (f : string) : Field :=
  if String.eqb f "mp4" then FVal (str "video/mp4")
  else if String.eqb f "webm" then FVal (str "video/webm")
  else if String.eqb f "gif" then FVal (str "image/gif")
  else if bool_decide (f ∈ Object_prototype) then FInherited f
  else FVal (str "video/mp4").

Lemma video_mime_type params f :
  or_else (assoc "format" params) (str "mp4") = str f →
  video_ext params = str f ∧ video_mime params = video_type f.
Proof.
  intros Hformat.
  assert (video_ext params = str f) as Hext.
  { unfold video_ext. rewrite Hformat. simpl.
    destruct (String.eqb_spec f "gif") as [-> | _]; reflexivity. }
  split; [exact Hext|].
  unfold video_mime, lookup_or, video_type. rewrite Hext. simpl.
  destruct (String.eqb_spec f "mp4") as [-> | Hmp4]; [reflexivity|].
  destruct (String.eqb_spec f "webm") as [-> | Hwebm]; [reflexivity|].
  destruct (String.eqb_spec f "gif") as [-> | Hgif]; [reflexivity|].
  repeat case_match; simplify_eq; try reflexivity; simpl in *; congruence.
Qed.

(** X21: record_video names and types its resource after the requested
    format ([mp4] when none is given), whether or not the file could be
    saved.  The uri ends in the format.  The MIME type is [video/mp4] for
    [mp4], [video/webm] for [webm] and [image/gif] for [gif]; for a format
    outside the table it is [video/mp4], so that such a format keeps its
    extension but is typed as mp4, unless the format is the name of a
    member of [Object.prototype] ([toString], [constructor], ...): then the
    lookup finds that inherited member and the resource carries it in the
    place of a MIME type. *)
Theorem video_resource_follows_format params w props f :
  answered host RecordVideo params w (JObj props) →
  printable RecordVideo params props →
  or_else (assoc "format" params) (str "mp4") = str f →
  ∃ text,
    (handler host RecordVideo params w).1 =
    Return {| content :=
                [ResourceItem ("pagebolt://video/recording." +:+ f) (video_type f)
                   (assoc "data" props);
                 TextItem text];
              isError := false |}.
Proof.
  intros Hans (Hformat & Hfields & usage & Husage & Hcost & Hremaining) Hf.
  repeat (apply Forall_cons in Hfields as [? Hfields]).
  destruct (answered_callApi host _ _ _ _ Hans) as (res & Hcall & Hjson).
  destruct Hans as (_ & Hvalid & _). simpl in Hvalid, Hcall.
  destruct (no_steps_total params) as [invalid Hsteps].
  rewrite Hsteps in Hvalid. subst invalid.
  destruct (video_mime_type _ _ Hf) as [Hext Hmime].
  pose proof (video_mime_flat _ Hformat) as Hlookup.
  rewrite Hmime in Hlookup.
  match goal with
  | |- ∃ text, _ = Return {| content := [?item; _]; isError := _ |} =>
      change (wp (record_video host params) w
                (λ o _, ∃ text, o = Return (success [item; TextItem text])))
  end.
  unfold record_video.
  apply wp_bind, wp_lift. rewrite Hsteps. cbv beta iota.
  apply wp_try_catch, wp_bind. eapply wp_eq; [exact Hcall|]. cbv beta iota.
  apply wp_bind, wp_lift. rewrite Hjson. cbv beta iota zeta.
  fold (video_ext params).
  apply wp_bind, wp_lift. rewrite Hlookup. cbv beta iota.
  apply wp_bind, wp_try_catch_returns. intros savedPath w'.
  apply wp_lift. rewrite Hext. simpl.
  rewrite !scaled_flat, Husage by assumption. simpl.
  rewrite !show_flat by assumption.
  eexists. reflexivity.
Qed.

End Calls.

(** * The api-docs resource *)

Section ResourceFacts.
Context `{Platform}.
Variable host : Host.
Variable res_text : Response → Outcome string.

(** X16: reading the api-docs resource never throws and needs no API key:
    whatever the configuration and the backend, it returns one text
    document under [pagebolt://api-docs] after exactly one request, a GET of
    [BASE_URL/llms-full.txt] that carries no header, hence no API key, and
    it writes no file. *)
Theorem api_docs_always_answers w :
  ∃ served req,
    (api_docs host res_text w).1 =
    Return [{| uri := "pagebolt://api-docs"; text := served; mimeType := "text/plain" |}] ∧
    http_log (api_docs host res_text w).2 = http_log w ++ [req] ∧
    req_url req = BASE_URL host +:+ "/llms-full.txt" ∧
    req_method req = "GET" ∧
    req_headers req = [] ∧
    fs_log (api_docs host res_text w).2 = fs_log w ∧
    fs (api_docs host res_text w).2 = fs w.
Proof.
  unfold api_docs, try_catch, mbind, M_bind, fetch, lift, mret, M_ret.
  destruct (backend host (http_log w) (docs_request host)) as [res|e]; simpl.
  - destruct (res_ok res); simpl.
    + destruct (res_text res) as [served|e]; simpl;
        eexists; exists (docs_request host); repeat split; reflexivity.
    + eexists; exists (docs_request host); repeat split; reflexivity.
  - eexists; exists (docs_request host); repeat split; reflexivity.
Qed.



End ResourceFacts.

(** * Prompts *)

Section PromptFacts.
Import Prompt.

Lemma or_default_idem v fallback :
  fallback ≠ "" →
  or_default (Some (or_default v fallback)) fallback = or_default v fallback.
Proof.
  intros Hne. destruct v as [[|c s]|]; simpl; try reflexivity;
    destruct fallback; congruence.
Qed.

(** X19: the capture-page prompt reads its options as switches: an option
    that is absent, empty, or set to anything but ['true'] (for
    [dark_mode] and [full_page]) or to ['none'] (for [style_theme]) leaves
    no trace in the text; both the settings list and the proposed call are
    those of the arguments without it. *)
Theorem capture_page_ignores_unset (args : CapturePage.Args) :
  CapturePage.prompt args = CapturePage.prompt (CapturePage.effective args).
Proof.
  destruct args as [url device dark full style].
  unfold CapturePage.prompt, CapturePage.effective, CapturePage.styled. simpl.
  destruct (given device) eqn:Hdevice; simpl; rewrite ?Hdevice;
    destruct (equals dark "true") eqn:Hdark; simpl;
    destruct (equals full "true") eqn:Hfull; simpl;
    destruct (given style && negb (equals style "none")) eqn:Hstyle; simpl;
    rewrite ?Hstyle; reflexivity.
Qed.

(** X20: the record-demo prompt fills in the documented defaults: leaving
    out [pace], [format], [frame] or [background] (or passing an empty
    string) gives the same text as passing [normal], [mp4], [none] and
    [none]. *)
Theorem record_demo_defaults (args : RecordDemo.Args) :
  RecordDemo.prompt args = RecordDemo.prompt (RecordDemo.with_defaults args).
Proof.
  unfold RecordDemo.prompt, RecordDemo.with_defaults. cbn [RecordDemo.url
    RecordDemo.description RecordDemo.pace RecordDemo.format RecordDemo.frame
    RecordDemo.background].
  rewrite !or_default_idem by discriminate. reflexivity.
Qed.

End PromptFacts.

(** * The further properties at concrete calls *)

Module Checks.
Import Reference Examples.

Definition respond (body : option Json) : Host :=
  process {| res_status := 200; res_statusText := "OK"; res_body := body |} None.

(** A process whose network is down. *)
Definition offline : Host :=
  {| PAGEBOLT_API_KEY := Some "pf_live_0123";
     PAGEBOLT_BASE_URL := Some "http://localhost:3000/";
     cwd := "/home/u/proj";
     backend := λ _ _, Rejected (TypeError "fetch failed");
     disk_fault := λ _ _, None |}.

Definition server_error : Response :=
  {| res_status := 500; res_statusText := "Internal Server Error";
     res_body := Some JNull |}.

(** An answer of the sequence endpoint: a screenshot, a pdf, and a second
    step that failed. *)
Definition shot : Json :=
  JObj [("type", JStr "screenshot"); ("name", JStr "home"); ("format", JStr "png");
        ("size_bytes", n 2048); ("step_index", n 0);
        ("data", JStr "aGk="); ("content_type", JStr "image/png")].

Definition report : Json :=
  JObj [("type", JStr "pdf"); ("name", JStr "report"); ("format", JStr "A4");
        ("size_bytes", n 4096); ("step_index", n 2); ("data", JStr "cGRm")].

Definition failed_step : Json :=
  JObj [("step_index", n 1); ("action", JStr "click"); ("status", JStr "error");
        ("error", JStr "Element not found")].

Definition sequence_answer : Json :=
  JObj [("outputs", JArr [shot; report]);
        ("step_results",
         JArr [JObj [("step_index", n 0); ("action", JStr "screenshot");
                     ("status", JStr "success")];
               failed_step]);
        ("steps_completed", n 2); ("total_steps", n 3); ("total_duration_ms", n 5200);
        ("usage", JObj [("outputs_charged", n 2); ("remaining", n 170)])].



Definition inspect_answer : Json :=
  JObj [("url", JStr "https://example.com/"); ("duration_ms", n 900)].

Lemma sourced_call_issues_one_request_witness :
  ∃ req, http_log (handler healthy TakeScreenshot page start).2 = http_log start ++ [req] ∧
         req_url req = BASE_URL healthy +:+ endpoint TakeScreenshot ∧
         ("x-api-key", "pf_live_0123") ∈ req_headers req.
Proof.
  apply (sourced_call_issues_one_request healthy TakeScreenshot page start "pf_live_0123").
  - reflexivity.
  - discriminate.
  - exists "url", "h"%char, "ttps://example.com". split; [left | reflexivity].
Defined.

Lemma handlers_with_catch_return_witness :
  ∃ r, (handler offline RecordVideo clip start).1 = Return r.
Proof.
  apply (handlers_with_catch_return offline RecordVideo clip start).
  eexists. reflexivity.
Defined.

Lemma network_failure_surfaced_witness :
  handler offline ListDevices [] start =
    (Throw (TypeError "fetch failed"), sent (tool_request offline ListDevices []) start).
Proof.
  apply (network_failure_surfaced offline ListDevices [] start (TypeError "fetch failed"));
    reflexivity.
Defined.

Lemma unreadable_answer_surfaced_witness :
  handler (respond None) InspectPage page start =
    (Return {| content := [TextItem "Inspect error: Unexpected token in JSON"];
               isError := true |},
     sent (tool_request (respond None) InspectPage page) start).
Proof.
  apply (unreadable_answer_surfaced (respond None) InspectPage page start
           {| res_status := 200; res_statusText := "OK"; res_body := None |}
           (SyntaxError "Unexpected token in JSON"));
    reflexivity.
Defined.

Lemma backend_failure_without_error_field_witness :
  (callApi (process server_error None) "/api/v1/usage" GET start).1 =
    Throw (Error "PageBolt API error: HTTP 500 Internal Server Error").
Proof.
  apply (backend_failure_without_error_field (process server_error None)
           "/api/v1/usage" GET start server_error);
    reflexivity.
Defined.

Lemma error_result_is_one_message_witness :
  ∃ text, content (failure (validation_message GeneratePdf)) = [TextItem text].
Proof.
  apply (error_result_is_one_message healthy GeneratePdf [] start); reflexivity.
Defined.

Lemma request_forwards_parameters_witness :
  req_method (tool_request healthy GeneratePdf (page ++ [("saveTo", JStr "out/a.pdf")])) =
    "POST" ∧
  ∃ body,
    req_body (tool_request healthy GeneratePdf (page ++ [("saveTo", JStr "out/a.pdf")])) =
      Some (JSON_stringify (JObj body)) ∧
    forwarded GeneratePdf (page ++ [("saveTo", JStr "out/a.pdf")]) body.
Proof.
  apply (request_forwards_parameters healthy GeneratePdf
           (page ++ [("saveTo", JStr "out/a.pdf")]) start).
  reflexivity.
Defined.

Lemma base_url_normalised_witness :
  BASE_URL healthy = "https://pagebolt.dev" ∧ BASE_URL offline = "http://localhost:3000".
Proof.
  split.
  - apply (proj1 (base_url_normalised healthy "")). left. reflexivity.
  - apply (proj1 (proj2 (base_url_normalised offline "http://localhost:3000"))).
    reflexivity.
Defined.

Lemma payload_saved_witness :
  fs (handler healthy GeneratePdf (page ++ [("saveTo", JStr "out/a.pdf")]) start).2
    !! "/home/u/proj/out/a.pdf" = Some "hi" ∧
  fs_log (handler healthy GeneratePdf (page ++ [("saveTo", JStr "out/a.pdf")]) start).2 =
    fs_log start ++ [("/home/u/proj/out/a.pdf", "hi")] ∧
  ∃ uri mime text,
    (handler healthy GeneratePdf (page ++ [("saveTo", JStr "out/a.pdf")]) start).1 =
      Return {| content := [ResourceItem uri mime (assoc "data" answer); TextItem text];
                isError := false |} ∧
    (Str.occurs ("File: " +:+ "/home/u/proj/out/a.pdf") text ∨
     Str.occurs ("File:     " +:+ "/home/u/proj/out/a.pdf") text).
Proof.
  apply (payload_saved healthy GeneratePdf (page ++ [("saveTo", JStr "out/a.pdf")]) start
           answer "/home/u/proj/out/a.pdf" "hi").
  - reflexivity.
  - split; [reflexivity|]. split; [reflexivity|]. exists ok. repeat split.
  - split; reflexivity.
  - reflexivity.
  - reflexivity.
  - reflexivity.
  - discriminate.
Defined.

Lemma sequence_images_are_screenshots_witness :
  images (content (result (handler (respond (Some sequence_answer)) RunSequence clip start))) =
    [(Some (JStr "aGk="), FVal (Some (JStr "image/png")))] ∧
  forallb (λ item, negb (is_resource item))
    (content (result (handler (respond (Some sequence_answer)) RunSequence clip start))) =
    true.
Proof.
  apply (sequence_images_are_screenshots (respond (Some sequence_answer)) clip start
           sequence_answer _ (Some (JArr [shot; report])) [Some shot; Some report]).
  - split; [reflexivity|]. split; [reflexivity|]. eexists. repeat split.
  - reflexivity.
  - reflexivity.
  - reflexivity.
  - reflexivity.
Defined.



Lemma null_answer_is_type_error_witness :
  ∃ text,
    handler (respond (Some JNull)) CheckUsage [] start =
    (Throw (TypeError text),
     sent (tool_request (respond (Some JNull)) CheckUsage []) start).
Proof.
  apply (null_answer_is_type_error (respond (Some JNull)) CheckUsage [] start).
  split; [reflexivity|]. split; [reflexivity|]. eexists. repeat split.
Defined.


Lemma page_line_comes_first_witness :
  ∃ title url rest,
    to_str (or_else (field (Some inspect_answer) "title") (str "(untitled)")) =
      Return title ∧
    to_str (or_else (or_else (field (Some inspect_answer) "url") (assoc "url" page))
                    (str "html content")) = Return url ∧
    content (result (handler (respond (Some inspect_answer)) InspectPage page start)) =
    [TextItem ("Page: " +:+ title +:+ " (" +:+ url +:+ ")" +:+ Str.nl +:+ rest)].
Proof.
  apply (page_line_comes_first (respond (Some inspect_answer)) page start inspect_answer).
  - split; [reflexivity|]. split; [reflexivity|]. eexists. repeat split.
  - reflexivity.
  - reflexivity.
Defined.

Lemma video_resource_follows_format_witness :
  (∃ text,
     (handler healthy RecordVideo (clip ++ [("format", JStr "avi")]) start).1 =
     Return {| content :=
                 [ResourceItem "pagebolt://video/recording.avi" (FVal (str "video/mp4"))
                    (assoc "data" answer);
                  TextItem text];
               isError := false |}) ∧
  (∃ text,
     (handler healthy RecordVideo (clip ++ [("format", JStr "toString")]) start).1 =
     Return {| content :=
                 [ResourceItem "pagebolt://video/recording.toString"
                    (FInherited "toString") (assoc "data" answer);
                  TextItem text];
               isError := false |}).
Proof.
  split.
  - apply (video_resource_follows_format healthy (clip ++ [("format", JStr "avi")]) start
             answer "avi").
    + split; [reflexivity|]. split; [reflexivity|]. exists ok. repeat split.
    + split; [reflexivity|]. split.
      * repeat constructor.
      * eexists. repeat split; reflexivity.
    + reflexivity.
  - apply (video_resource_follows_format healthy (clip ++ [("format", JStr "toString")])
             start answer "toString").
    + split; [reflexivity|]. split; [reflexivity|]. exists ok. repeat split.
    + split; [reflexivity|]. split.
      * repeat constructor.
      * eexists. repeat split; reflexivity.
    + reflexivity.
Defined.




End Checks.
